(** * The inventory text parser of [app.py]

    A shallow embedding of [parse_inventory_file] (app.py, lines 24-85) and
    of the parts of the Python runtime it relies on: [str] as a sequence of
    Unicode code points, [str.strip], the backtracking matcher of [re.match]
    on the two patterns of the source, [int], [float] (IEEE 754 binary64)
    and [print]. *)

From Stdlib Require Import String Ascii.
From Stdlib Require Import ZArith NArith List Bool Lia.
From Stdlib Require Import SpecFloat.
Import ListNotations.

Local Open Scope N_scope.

(** ** Python [str]: sequences of Unicode code points *)

Definition char := N.
Definition str := list char.

(** The file is opened with [encoding='utf-8']; lines are written below as
    UTF-8 literals and decoded to code points. *)
Module Utf8.

Definition cont (b : N) : bool := (128 <=? b) && (b <? 192).

Fixpoint decode (bs : list N) : option str :=
  match bs with
  | [] => Some []
  | b :: t =>
      if b <? 128 then option_map (cons b) (decode t)
      else if (192 <=? b) && (b <? 224) then
        match t with
        | b1 :: t1 =>
            if cont b1
            then option_map (cons ((b - 192) * 64 + (b1 - 128))) (decode t1)
            else None
        | _ => None
        end
      else if (224 <=? b) && (b <? 240) then
        match t with
        | b1 :: b2 :: t2 =>
            if cont b1 && cont b2
            then option_map
                   (cons ((b - 224) * 4096 + (b1 - 128) * 64 + (b2 - 128)))
                   (decode t2)
            else None
        | _ => None
        end
      else if (240 <=? b) && (b <? 248) then
        match t with
        | b1 :: b2 :: b3 :: t3 =>
            if cont b1 && cont b2 && cont b3
            then option_map
                   (cons ((b - 240) * 262144 + (b1 - 128) * 4096
                          + (b2 - 128) * 64 + (b3 - 128)))
                   (decode t3)
            else None
        | _ => None
        end
      else None
  end.

Definition bytes (s : string) : list N :=
  map N_of_ascii (list_ascii_of_string s).

End Utf8.

(** [u "..."] is the [str] whose UTF-8 encoding is the literal. *)
Definition u (s : string) : str :=
  match Utf8.decode (Utf8.bytes s) with
  | Some l => l
  | None => []
  end.
Arguments u s%_string.

(** Code points used by the source. *)
Definition LF : char := 10.
Definition COMMA : char := 44.
Definition PERIOD : char := 46.

(** [Py_UNICODE_ISSPACE]: the predicate behind [str.strip()],
    [str.isspace()] and the pattern escape [\s]. *)
Definition is_space (c : char) : bool :=
  existsb (N.eqb c)
    [9; 10; 11; 12; 13; 28; 29; 30; 31; 32; 133; 160; 5760;
     8232; 8233; 8239; 8287; 12288]
  || ((8192 <=? c) && (c <=? 8202)).

(** [Py_UNICODE_ISDECIMAL] / [Py_UNICODE_TODECIMAL]: every decimal digit of
    Unicode sits in a run of ten consecutive code points, listed here by
    the code point of its zero (Unicode 14, the table of CPython 3.11). *)
Definition decimal_zeros : list char :=
  [48; 1632; 1776; 1984; 2406; 2534; 2662; 2790; 2918; 3046; 3174; 3302;
   3430; 3558; 3664; 3792; 3872; 4160; 4240; 6112; 6160; 6470; 6608; 6784;
   6800; 6992; 7088; 7232; 7248; 42528; 43216; 43264; 43472; 43504; 43600;
   44016; 65296; 66720; 68912; 69734; 69872; 69942; 70096; 70384; 70736;
   70864; 71248; 71360; 71472; 71904; 72016; 72784; 73040; 73120; 92768;
   92864; 93008; 120782; 120792; 120802; 120812; 120822; 123200; 123632;
   125264; 130032].

Definition decimal_value (c : char) : option N :=
  match find (fun z => (z <=? c) && (c <? z + 10)) decimal_zeros with
  | Some z => Some (c - z)
  | None => None
  end.

Definition is_decimal (c : char) : bool :=
  match decimal_value c with
  | Some _ => true
  | None => false
  end.

(** *** [str] methods *)

Fixpoint lstrip (s : str) : str :=
  match s with
  | c :: t => if is_space c then lstrip t else s
  | [] => []
  end.

Definition rstrip (s : str) : str := rev (lstrip (rev s)).

(** [s.strip()] *)
Definition strip (s : str) : str := rstrip (lstrip s).

(** [s.isspace()]: at least one character and all of them whitespace. *)
Definition isspace (s : str) : bool :=
  match s with
  | [] => false
  | _ => forallb is_space s
  end.

(** Truth value of a [str]: non-empty. *)
Definition truthy (s : str) : bool :=
  match s with
  | [] => false
  | _ => true
  end.

(** [s.endswith(c)] for a one-character suffix. *)
Definition endswith (s : str) (c : char) : bool :=
  match rev s with
  | x :: _ => x =? c
  | [] => false
  end.

(** [s[:-1]] *)
Definition drop_last (s : str) : str := removelast s.

(** [s.replace(a, b)] for one-character [a] and [b]. *)
Definition replace (a b : char) (s : str) : str :=
  map (fun c => if c =? a then b else c) s.

(** [s[i:j]] for [0 <= i <= j]. *)
Definition slice (s : str) (i j : nat) : str := firstn (j - i) (skipn i s).

(** ** [re.match]: the backtracking matcher *)

Module Re.

(** Character sets: [\d], [\s], [.] (no DOTALL flag) and [[...]]. *)
Inductive cset :=
| Digit
| Space
| Dot
| OneOf (l : list char).

Definition mem (cs : cset) (c : char) : bool :=
  match cs with
  | Digit => is_decimal c
  | Space => is_space c
  | Dot => negb (c =? LF)
  | OneOf l => existsb (N.eqb c) l
  end.

(** The pattern constructs the source uses. Repetition is only ever
    applied to a character set. *)
Inductive regex :=
| Set1 (cs : cset)               (* one character of the set *)
| Plus (cs : cset)               (* cs+   greedy *)
| LazyStar (cs : cset)           (* cs*?  non-greedy *)
| Cat (r1 r2 : regex)            (* r1 r2 *)
| Group (i : nat) (r : regex)    (* ( r ), the i-th capture group *)
| Opt (r : regex)                (* (?: r )?  greedy *)
| Dollar.                        (* $, no MULTILINE flag *)

(** Matcher state: characters consumed so far, characters left, and the
    spans of the groups that took part. *)
Record mstate := MState {
  pos : nat;
  rest : str;
  marks : list (nat * (nat * nat))
}.

Definition advance (st : mstate) (t : str) : mstate :=
  MState (S (pos st)) t (marks st).

Definition set_mark (i : nat) (a : nat) (st : mstate) : mstate :=
  MState (pos st) (rest st) ((i, (a, pos st)) :: marks st).

Section Backtracking.

Variable cs : cset.
Variable k : mstate -> option mstate.

(** [cs*] greedy: take the longest run first, give back one character at a
    time while the continuation fails. *)
Fixpoint greedy (p : nat) (s : str) (mk : list (nat * (nat * nat)))
  : option mstate :=
  match s with
  | c :: t =>
      if mem cs c then
        match greedy (S p) t mk with
        | Some r => Some r
        | None => k (MState p s mk)
        end
      else k (MState p s mk)
  | [] => k (MState p s mk)
  end.

(** [cs*?]: try the continuation first, take one more character only when
    it fails. *)
Fixpoint lazy_ (p : nat) (s : str) (mk : list (nat * (nat * nat)))
  : option mstate :=
  match k (MState p s mk) with
  | Some r => Some r
  | None =>
      match s with
      | c :: t => if mem cs c then lazy_ (S p) t mk else None
      | [] => None
      end
  end.

End Backtracking.

(** [$]: at the end of the string, or just before a newline that ends it. *)
Definition at_dollar (s : str) : bool :=
  match s with
  | [] => true
  | [c] => c =? LF
  | _ => false
  end.

(** [run r k st]: match [r] at [st], then the continuation [k]; the first
    success in the engine's order of alternatives wins. *)
Fixpoint run (r : regex) (k : mstate -> option mstate) (st : mstate)
  : option mstate :=
  match r with
  | Set1 cs =>
      match rest st with
      | c :: t => if mem cs c then k (advance st t) else None
      | [] => None
      end
  | Plus cs =>
      match rest st with
      | c :: t =>
          if mem cs c then greedy cs k (S (pos st)) t (marks st) else None
      | [] => None
      end
  | LazyStar cs => lazy_ cs k (pos st) (rest st) (marks st)
  | Cat r1 r2 => run r1 (run r2 k) st
  | Group i r => run r (fun st' => k (set_mark i (pos st) st')) st
  | Opt r =>
      match run r k st with
      | Some res => Some res
      | None => k st
      end
  | Dollar => if at_dollar (rest st) then k st else None
  end.

(** Match objects. *)
Record Match := MkMatch {
  subject : str;
  regs : list (nat * (nat * nat))
}.

Fixpoint lookup (i : nat) (mk : list (nat * (nat * nat)))
  : option (nat * nat) :=
  match mk with
  | (j, sp) :: t => if Nat.eqb i j then Some sp else lookup i t
  | [] => None
  end.

(** [re.match(pattern, s)]: anchored at the start of [s]. *)
Definition match_ (r : regex) (s : str) : option Match :=
  match run r Some (MState 0 s []) with
  | Some st => Some (MkMatch s (marks st))
  | None => None
  end.

(** [m.group(i)]: [None] when group [i] did not take part. *)
Definition group (m : Match) (i : nat) : option str :=
  match lookup i (regs m) with
  | Some (a, b) => Some (slice (subject m) a b)
  | None => None
  end.

(** The words a pattern matches, read off its syntax:
    [matches r st w st'] when from [st], [r] can consume the word [w] and
    reach [st']. *)
Inductive matches : regex -> mstate -> str -> mstate -> Prop :=
| matches_set1 cs p c t mk :
    mem cs c = true ->
    matches (Set1 cs) (MState p (c :: t) mk) [c] (MState (S p) t mk)
| matches_plus cs p w t mk :
    w <> [] -> forallb (mem cs) w = true ->
    matches (Plus cs) (MState p (w ++ t) mk) w (MState (p + length w) t mk)
| matches_lazy cs p w t mk :
    forallb (mem cs) w = true ->
    matches (LazyStar cs) (MState p (w ++ t) mk) w
            (MState (p + length w) t mk)
| matches_cat r1 r2 st1 w1 st2 w2 st3 :
    matches r1 st1 w1 st2 -> matches r2 st2 w2 st3 ->
    matches (Cat r1 r2) st1 (w1 ++ w2) st3
| matches_group i r st w st' :
    matches r st w st' ->
    matches (Group i r) st w (set_mark i (pos st) st')
| matches_opt_taken r st w st' :
    matches r st w st' -> matches (Opt r) st w st'
| matches_opt_skipped r st :
    matches (Opt r) st [] st
| matches_dollar st :
    at_dollar (rest st) = true -> matches Dollar st [] st.

End Re.

(** The trailing numeric token [\d+(?:[.,]\d+)?]. *)
Definition number_token : Re.regex :=
  Re.Cat (Re.Plus Re.Digit)
         (Re.Opt (Re.Cat (Re.Set1 (Re.OneOf [PERIOD; COMMA]))
                         (Re.Plus Re.Digit))).

(** [(?:\s+(\d+(?:[.,]\d+)?))?$] with the token as group [i]. *)
Definition price_tail (i : nat) : Re.regex :=
  Re.Cat (Re.Opt (Re.Cat (Re.Plus Re.Space) (Re.Group i number_token)))
         Re.Dollar.

(** Line 38: [(\d+)\s+(.*?)(?:\s+(\d+(?:[.,]\d+)?))?$] *)
Definition pattern_A : Re.regex :=
  Re.Cat (Re.Group 1 (Re.Plus Re.Digit))
    (Re.Cat (Re.Plus Re.Space)
       (Re.Cat (Re.Group 2 (Re.LazyStar Re.Dot)) (price_tail 3))).

(** Line 42: [(.*?)(?:\s+(\d+(?:[.,]\d+)?))?$] *)
Definition pattern_B : Re.regex :=
  Re.Cat (Re.Group 1 (Re.LazyStar Re.Dot)) (price_tail 2).

(** ** Exceptions *)

Inductive value_error :=
| InvalidLiteral (s : str)          (* invalid literal for int() *)
| ExceedsDigitLimit (digits : nat)  (* Exceeds the limit (4300 digits) *)
| NotAFloat (s : str).              (* could not convert string to float *)

Inductive exn :=
| ValueError (why : value_error)
| TypeError
| AttributeError.

Inductive exn_class := Exception_ | ValueError_.

(** [isinstance(e, cls)]: every modelled exception derives from
    [Exception]. *)
Definition isinstance (e : exn) (c : exn_class) : bool :=
  match c, e with
  | Exception_, _ => true
  | ValueError_, ValueError _ => true
  | ValueError_, _ => false
  end.

Definition result (A : Type) := sum exn A.

(** ** [int] and [float] *)

Local Open Scope Z_scope.

(** Value of a run of decimal digits, most significant first. *)
Definition digits_value (s : str) : Z :=
  fold_left
    (fun acc c =>
       match decimal_value c with
       | Some d => 10 * acc + Z.of_N d
       | None => 10 * acc
       end)
    s 0.

Definition all_decimal (s : str) : bool := truthy s && forallb is_decimal s.

(** [sys.int_info.default_max_str_digits] *)
Definition int_max_str_digits : nat := 4300.

(** [int(x)] on what [m.group(i)] can hand to it: [None], or a string.
    Strings are covered on the domain the capture group [(\d+)] ranges over,
    non-empty runs of decimal digits (see [ReFacts.pattern_A_groups]); the
    other spellings [int] reads (sign, underscores, surrounding blanks)
    never reach it and are not modelled: they fall under
    [InvalidLiteral]. *)
Definition int_ (x : option str) : result Z :=
  match x with
  | None => inl TypeError
  | Some s =>
      if all_decimal s then
        if (int_max_str_digits <? length s)%nat
        then inl (ValueError (ExceedsDigitLimit (length s)))
        else inr (digits_value s)
      else inl (ValueError (InvalidLiteral s))
  end.

(** Python floats are IEEE 754 binary64 numbers. *)
Definition float := spec_float.
Definition prec : Z := 53.
Definition emax : Z := 1024.

Definition zero : float := S754_zero false.

(** [x <= y] on floats; false as soon as one side is a NaN. *)
Definition float_le (x y : float) : bool := SFleb x y.

(** The binary64 number nearest to [n / d] (ties to even), for [0 <= n]
    and [0 < d]; an infinity past the largest finite number. *)
Definition float_of_ratio (n d : Z) : float :=
  match n with
  | Z0 => zero
  | _ =>
      let '(q, e, l) := SFdiv_core_binary prec emax n 0 d 0 in
      binary_round_aux prec emax false q e l
  end.

(** Longest prefix of decimal digits, and what follows it. *)
Fixpoint span_decimal (s : str) : str * str :=
  match s with
  | c :: t =>
      if is_decimal c
      then let '(ds, r) := span_decimal t in (c :: ds, r)
      else ([], s)
  | [] => ([], [])
  end.

(** A numeral [d+] or [d+.d+] as (digits without the point, number of
    fraction digits). *)
Definition numeral (s : str) : option (Z * nat) :=
  let '(ip, r) := span_decimal s in
  match ip, r with
  | [], _ => None
  | _, [] => Some (digits_value ip, O)
  | _, c :: fp =>
      if (c =? PERIOD)%N && all_decimal fp
      then Some (digits_value (ip ++ fp), length fp)
      else None
  end.

(** [float(s)] on the domain the price capture ranges over once its comma
    is replaced: numerals [d+] and [d+.d+] (see [extract_price_token]),
    converted with correct rounding. The other spellings [float] reads
    (sign, exponent, inf, nan, underscores, surrounding blanks) never
    reach it and are not modelled: they fall under [NotAFloat]. *)
Definition float_ (s : str) : result float :=
  match numeral s with
  | Some (n, k) => inr (float_of_ratio n (10 ^ Z.of_nat k))
  | None => inl (ValueError (NotAFloat s))
  end.

(** ** Statements: exceptions and standard output *)

(** What [print] writes: the per-line report of line 82 and the summary of
    line 84, kept as data rather than formatted text. *)
Inductive output :=
| ErrorLine (line_number : nat) (line : str) (e : exn)
| Total (n : nat).

Definition stdout := list output.

(** A computation reads and extends standard output and either returns or
    raises. *)
Definition M (A : Type) := stdout -> result A * stdout.

Definition ret {A} (x : A) : M A := fun out => (inr x, out).

Definition bind {A B} (c : M A) (f : A -> M B) : M B :=
  fun out =>
    match c out with
    | (inr x, out') => f x out'
    | (inl e, out') => (inl e, out')
    end.

Definition lift {A} (r : result A) : M A := fun out => (r, out).

Definition print (o : output) : M unit := fun out => (inr tt, out ++ [o]).

(** [try: body  except cls as e: handler e] *)
Definition try_except {A} (body : M A) (cls : exn_class)
           (handler : exn -> M A) : M A :=
  fun out =>
    match body out with
    | (inl e, out') =>
        if isinstance e cls then handler e out' else (inl e, out')
    | r => r
    end.

Declare Scope py_scope.
Delimit Scope py_scope with py.
Notation "x <- c ;; k" := (bind c (fun x => k))
  (at level 61, c at next level, right associativity) : py_scope.
Notation "' p <- c ;; k" := (bind c (fun x => let 'p := x in k))
  (at level 61, p pattern, c at next level, right associativity) : py_scope.
Notation "c ;; k" := (bind c (fun _ => k))
  (at level 61, right associativity) : py_scope.
Local Open Scope py_scope.

(** ** The parser *)

Record product := Product {
  quantity : Z;
  name : str;
  price : float
}.

(** [x.strip()] on a value that may be [None]. *)
Definition strip_method (x : option str) : result str :=
  match x with
  | Some s => inr (strip s)
  | None => inl AttributeError
  end.

(** Lines 38-55: the pattern cascade. *)
Definition extract (line : str) : M (Z * str * option str) :=
  match Re.match_ pattern_A line with
  | None =>
      match Re.match_ pattern_B line with
      | Some m =>
          name <- lift (strip_method (Re.group m 1)) ;;
          let price_str := Re.group m 2 in
          ret (1, name, price_str)
      | None => ret (1, line, None)
      end
  | Some m =>
      quantity <- lift (int_ (Re.group m 1)) ;;
      name <- lift (strip_method (Re.group m 2)) ;;
      let price_str := Re.group m 3 in
      ret (quantity, name, price_str)
  end.

(** Lines 58-66: the price. *)
Definition to_price (price_str : option str) : M float :=
  match price_str with
  | Some s =>
      if truthy s then
        let s := replace COMMA PERIOD s in
        try_except (lift (float_ s)) ValueError_ (fun _ => ret zero)
      else ret zero
  | None => ret zero
  end.

(** Lines 69-71: the name. *)
Definition clean_name (name : str) : str :=
  let name := strip name in
  if endswith name PERIOD then strip (drop_last name) else name.

(** Lines 35-79: the body of the [try]. *)
Definition try_body (line : str) (products : list product)
  : M (list product) :=
  '(quantity, name, price_str) <- extract line ;;
  price <- to_price price_str ;;
  let name := clean_name name in
  if truthy name && negb (isspace name)
  then ret (products ++ [Product quantity name price])
  else ret products.

(** Lines 30-82: one turn of the loop. *)
Definition loop_body (line_number : nat) (line : str)
           (products : list product) : M (list product) :=
  let line := strip line in
  if negb (truthy line) || (length line <? 3)%nat then ret products
  else
    try_except (try_body line products) Exception_
      (fun e => print (ErrorLine line_number line e) ;; ret products).

(** [for line_number, line in enumerate(file, start)] *)
Fixpoint for_enumerate (file : list str) (line_number : nat)
         (products : list product) : M (list product) :=
  match file with
  | [] => ret products
  | line :: file' =>
      products' <- loop_body line_number line products ;;
      for_enumerate file' (S line_number) products'
  end.

(** Lines 24-85. [file] is the sequence of lines the opened file yields. *)
Definition parse_inventory_file (file : list str) : M (list product) :=
  products <- for_enumerate file 1 [] ;;
  print (Total (length products)) ;;
  ret products.

(** ** Reading the results, and notions used to state the properties *)

(** The records a run returns, started on an empty standard output. *)
Definition records (file : list str) : list product :=
  match fst (parse_inventory_file file []) with
  | inr products => products
  | inl _ => []
  end.

(** [represents f n d]: the float [f] is exactly the rational [n / d]. *)
Definition represents (f : float) (n d : Z) : Prop :=
  match f with
  | S754_zero _ => n = 0
  | S754_finite s m e =>
      (if s then Z.neg m else Z.pos m) * 2 ^ Z.max e 0 * d
      = n * 2 ^ Z.max (- e) 0
  | _ => False
  end.

(** The float that the literals [5.50] and [5.5] denote. *)
Definition float_5_50 : float := S754_finite false 6192449487634432 (-50).

(** The output invariant of section 6 of the specification. *)
Definition valid_record (p : product) : Prop :=
  0 <= quantity p
  /\ float_le zero (price p) = true
  /\ name p <> []
  /\ exists c, In c (name p) /\ is_space c = false.

(** Floats that are neither negative nor a NaN. *)
Definition nonneg_float (f : float) : Prop :=
  match f with
  | S754_zero false | S754_infinity false | S754_finite false _ _ => True
  | _ => False
  end.

(** Tokens that [float] reads once the comma is replaced. *)
Definition price_token (tok : str) : Prop :=
  truthy tok = true
  /\ exists n k, numeral (replace COMMA PERIOD tok) = Some (n, k).

(** Computations that leave standard output alone. *)
Definition silent {A} (c : M A) : Prop :=
  forall out, c out = (fst (c []), out).

(** The records one line yields when its [try] body runs alone. *)
Definition line_records (line : str) : result (list product) :=
  fst (try_body line [] []).

(** The test of line 31, on the line as read. *)
Definition skipped (line : str) : bool :=
  negb (truthy (strip line)) || (length (strip line) <? 3)%nat.

(** What a line adds to [products] ... *)
Definition emitted (line : str) : list product :=
  if skipped line then []
  else match line_records (strip line) with
       | inr l => l
       | inl _ => []
       end.

(** ... and to standard output. *)
Definition reported (line_number : nat) (line : str) : stdout :=
  if skipped line then []
  else match line_records (strip line) with
       | inr _ => []
       | inl e => [ErrorLine line_number (strip line) e]
       end.

Fixpoint reports (line_number : nat) (file : list str) : stdout :=
  match file with
  | [] => []
  | line :: file' => reported line_number line ++ reports (S line_number) file'
  end.

(** ** Lines of a known form *)

(** A run of white space that is not empty. *)
Definition blanks (sp : str) : Prop :=
  sp <> [] /\ forallb is_space sp = true.

(** The token [\d+(?:[.,]\d+)?], read off the pattern: digits, then
    possibly a period or a comma and digits. *)
Definition numeric_token (tok : str) : Prop :=
  exists ip,
    all_decimal ip = true
    /\ (tok = ip
        \/ exists sep fp,
             (sep = PERIOD \/ sep = COMMA)
             /\ all_decimal fp = true /\ tok = ip ++ sep :: fp).

(** The text of a name: not empty, no white space at either end, no
    newline inside. *)
Definition name_text (body : str) : Prop :=
  body <> [] /\ strip body = body /\ ~ In LF body.

(** The characters a numeric token is made of. *)
Definition token_char (c : char) : bool :=
  is_decimal c || (c =? PERIOD)%N || (c =? COMMA)%N.

(** Text that does not end with blanks followed by a numeric token. *)
Definition no_price (r : str) : Prop :=
  forall x sp tok,
    r = x ++ sp ++ tok -> blanks sp -> numeric_token tok -> False.

(** The leading run of decimal digits of a line. *)
Definition leading_digits (line : str) : str := fst (span_decimal line).

(** The leading run of digits is not empty and a blank follows it. *)
Definition has_quantity_prefix (line : str) : bool :=
  match span_decimal line with
  | (d, c :: _) => truthy d && is_space c
  | (_, []) => false
  end.

(** [stops cs t]: a run of characters of [cs] cannot go on into [t]. *)
Definition stops (cs : Re.cset) (t : str) : Prop :=
  match t with
  | [] => True
  | c :: _ => Re.mem cs c = false
  end.

(** ** The callers of the parser: the database and the start of the program *)

(** Python values that go to and come from the driver. *)
Inductive value :=
| VInt (n : Z)
| VFloat (x : float)
| VStr (s : str)
| VNone.

(** The calls the program makes on psycopg2. *)
Inductive db_call :=
| Connect                                     (* get_db_connection() *)
| Cursor                                      (* conn.cursor() *)
| Execute (sql : string) (params : list value)
| Fetchone
| CursorClose
| ConnClose.

(** What a call does: it raises a psycopg2 error, or it returns (a row or
    [None] for [fetchone], nothing of interest for the other calls). *)
Inductive reply :=
| Raises (error : string)
| Returns (row : option (list value)).

(** The database as the program sees it: the reply to a call, given the
    calls made so far. *)
Definition driver := list db_call -> db_call -> reply.

Inductive failure :=
| PyError (e : exn)
| IndexError
| DbError (error : string).

(** Lines 439, 453 and 455, and what the parser prints. *)
Inductive console_line :=
| FromParser (o : output)
| Importing
| Imported (n : nat)
| AlreadyHas (count : value).

Record world := World {
  console : list console_line;
  calls : list db_call;
  products_json : list (list product)   (* what was dumped, each time *)
}.

Definition P (A : Type) := driver -> world -> (failure + A) * world.

Definition retP {A} (x : A) : P A := fun _ w => (inr x, w).

Definition bindP {A B} (c : P A) (f : A -> P B) : P B :=
  fun drv w =>
    match c drv w with
    | (inr x, w') => f x drv w'
    | (inl e, w') => (inl e, w')
    end.

Definition liftP {A} (r : failure + A) : P A := fun _ w => (r, w).

(** A call on the driver: it is made, then it raises or returns. *)
Definition call (c : db_call) : P (option (list value)) :=
  fun drv w =>
    let w' := World (console w) (calls w ++ [c]) (products_json w) in
    match drv (calls w) c with
    | Raises error => (inl (DbError error), w')
    | Returns row => (inr row, w')
    end.

Definition printP (l : console_line) : P unit :=
  fun _ w => (inr tt, World (console w ++ [l]) (calls w) (products_json w)).

(** A computation of the parser, run inside the program: what it prints
    goes to the console. *)
Definition from_parser {A} (c : M A) : P A :=
  fun _ w =>
    let '(r, out) := c [] in
    (match r with inl e => inl (PyError e) | inr x => inr x end,
     World (console w ++ map FromParser out) (calls w) (products_json w)).

(** [json.dump({'products': products}, f, ...)] on a fresh products.json *)
Definition dump_json (products : list product) : P unit :=
  fun _ w =>
    (inr tt, World (console w) (calls w) (products_json w ++ [products])).

Declare Scope db_scope.
Delimit Scope db_scope with db.
Notation "x <- c ;; k" := (bindP c (fun x => k))
  (at level 61, c at next level, right associativity) : db_scope.
Notation "c ;; k" := (bindP c (fun _ => k))
  (at level 61, right associativity) : db_scope.
Open Scope db_scope.

(** [row[0]] *)
Definition item0 (row : option (list value)) : failure + value :=
  match row with
  | None => inl (PyError TypeError)
  | Some [] => inl IndexError
  | Some (v :: _) => inr v
  end.

(** [v == 0] *)
Definition equals_zero (v : value) : bool :=
  match v with
  | VInt n => n =? 0
  | VFloat x => SFeqb x zero
  | _ => false
  end.

Definition count_products : db_call :=
  Execute "SELECT COUNT(*) FROM products" [].

Definition insert_product (p : product) : db_call :=
  Execute "INSERT INTO products (name, quantity, price) VALUES (%s, %s, %s)"
          [VStr (name p); VInt (quantity p); VFloat (price p)].

(** [for x in l: body x] *)
Fixpoint for_each {A} (l : list A) (body : A -> P unit) : P unit :=
  match l with
  | [] => retP tt
  | x :: t => body x ;; for_each t body
  end.

(** Lines 128-132: the loop that sends the rows. *)
Definition insert_loop (products : list product) : P unit :=
  for_each products (fun product => call (insert_product product) ;; retP tt).

(** Lines 117-135. *)
Definition import_products_to_db (products : list product) : P unit :=
  call Connect ;;
  call Cursor ;;
  call count_products ;;
  row <- call Fetchone ;;
  count <- liftP (item0 row) ;;
  (if equals_zero count then insert_loop products else retP tt) ;;
  call CursorClose ;;
  call ConnClose ;;
  retP tt.

(** Lines 436-460. [inventory_file] is [None] when the path does not exist,
    and the lines of the file otherwise. *)
Definition startup_import (inventory_file : option (list str)) : P unit :=
  call Connect ;;
  call Cursor ;;
  call count_products ;;
  row <- call Fetchone ;;
  count <- liftP (item0 row) ;;
  call CursorClose ;;
  call ConnClose ;;
  if equals_zero count then
    printP Importing ;;
    match inventory_file with
    | Some file =>
        products <- from_parser (parse_inventory_file file) ;;
        import_products_to_db products ;;
        dump_json products ;;
        printP (Imported (length products))
    | None => retP tt
    end
  else printP (AlreadyHas count).

(** A driver on which no call raises. *)
Definition never_raises (drv : driver) : Prop :=
  forall h c, exists row, drv h c = Returns row.

(** The calls that read the number of products. *)
Definition read_count : list db_call :=
  [Connect; Cursor; count_products; Fetchone].

(** The first look at the table, lines 437-442. *)
Definition first_check : list db_call :=
  read_count ++ [CursorClose; ConnClose].

(** *** Three databases *)

(** A database with no product, on which nothing fails. *)
Definition empty_db : driver :=
  fun _ c =>
    match c with
    | Fetchone => Returns (Some [VInt 0])
    | _ => Returns None
    end.

(** A database with three products. *)
Definition stocked_db : driver :=
  fun _ c =>
    match c with
    | Fetchone => Returns (Some [VInt 3])
    | _ => Returns None
    end.

(** An empty database that refuses the second row: its sixth call. *)
Definition refusing_db : driver :=
  fun h c =>
    if (length h =? 5)%nat then Raises "integer out of range"
    else empty_db h c.

Definition world0 : world := World [] [] [].

Close Scope db_scope.

(** * Properties *)

(** ** Strings *)

Lemma lstrip_app_nonspace s c t :
  is_space c = false -> lstrip (s ++ c :: t) = lstrip s ++ c :: t.
Proof.
  intros Hc. induction s as [|x s IH]; simpl.
  - now rewrite Hc.
  - destruct (is_space x); [exact IH | reflexivity].
Qed.

Lemma lstrip_head_nonspace c t :
  is_space c = false -> lstrip (c :: t) = c :: t.
Proof. intros Hc. simpl. now rewrite Hc. Qed.

Lemma rstrip_snoc_nonspace s c :
  is_space c = false -> rstrip (s ++ [c]) = s ++ [c].
Proof.
  intros Hc. unfold rstrip. rewrite rev_app_distr. simpl.
  rewrite Hc. simpl. now rewrite rev_involutive.
Qed.

(** What [lstrip] leaves starts with a character that is not a space. *)
Lemma lstrip_cons s c t : lstrip s = c :: t -> is_space c = false.
Proof.
  induction s as [|x s IH]; simpl; [discriminate|].
  destruct (is_space x) eqn:E; [exact IH|].
  intros H. injection H as -> _. exact E.
Qed.

Lemma rstrip_snoc s t c : rstrip s = t ++ [c] -> is_space c = false.
Proof.
  unfold rstrip. intros H.
  apply (f_equal (@rev char)) in H.
  rewrite rev_involutive, rev_app_distr in H. simpl in H.
  eapply lstrip_cons; eassumption.
Qed.

(** [rstrip] keeps a first character that is not a space. *)
Lemma rstrip_cons_nonspace c t :
  is_space c = false -> exists t', rstrip (c :: t) = c :: t'.
Proof.
  intros Hc. unfold rstrip. simpl.
  rewrite lstrip_app_nonspace by exact Hc.
  rewrite rev_app_distr. simpl. eauto.
Qed.

Lemma strip_cons s c t : strip s = c :: t -> is_space c = false.
Proof.
  unfold strip. intros H.
  destruct (lstrip s) as [|x l] eqn:E.
  - discriminate H.
  - pose proof (lstrip_cons _ _ _ E) as Hx.
    destruct (rstrip_cons_nonspace x l Hx) as [t' Ht'].
    rewrite Ht' in H. injection H as <- _. exact Hx.
Qed.

Lemma strip_snoc s t c : strip s = t ++ [c] -> is_space c = false.
Proof. unfold strip. apply rstrip_snoc. Qed.

Lemma endswith_snoc s c d : endswith (s ++ [c]) d = (c =? d)%N.
Proof. unfold endswith. now rewrite rev_app_distr. Qed.

Lemma drop_last_snoc s c : drop_last (s ++ [c]) = s.
Proof. unfold drop_last. apply removelast_last. Qed.

(** ** Floats: conversion never yields a negative number or a NaN *)

Lemma nonneg_float_le f : nonneg_float f -> float_le zero f = true.
Proof. destruct f as [[|]|[|]| |[|] m e]; simpl; intros H; tauto. Qed.

Lemma shr_1_nonneg mrs : 0 <= shr_m mrs -> 0 <= shr_m (shr_1 mrs).
Proof.
  destruct mrs as [m r s0]. simpl.
  destruct m as [|[p|p|]|[p|p|]]; simpl; lia.
Qed.

Lemma iter_shr_1_nonneg p :
  forall mrs, 0 <= shr_m mrs -> 0 <= shr_m (iter_pos shr_1 p mrs).
Proof.
  induction p as [p IH|p IH|]; intros mrs H; simpl.
  - apply IH, IH, shr_1_nonneg, H.
  - apply IH, IH, H.
  - apply shr_1_nonneg, H.
Qed.

Lemma shr_record_of_loc_m m l : shr_m (shr_record_of_loc m l) = m.
Proof. destruct l as [|[| |]]; reflexivity. Qed.

Lemma shr_fexp_nonneg m e l :
  0 <= m -> 0 <= shr_m (fst (shr_fexp prec emax m e l)).
Proof.
  intros H. unfold shr_fexp, shr.
  destruct (fexp prec emax (Zdigits2 m + e) - e) as [|p|p]; simpl;
    try (rewrite shr_record_of_loc_m; exact H).
  apply iter_shr_1_nonneg. rewrite shr_record_of_loc_m. exact H.
Qed.

Lemma round_nearest_even_nonneg m l : 0 <= m -> 0 <= round_nearest_even m l.
Proof.
  intros H. destruct l as [|[| |]]; simpl; try lia.
  destruct (Z.even m); lia.
Qed.

Lemma binary_round_aux_nonneg m e l :
  0 <= m -> nonneg_float (binary_round_aux prec emax false m e l).
Proof.
  intros H. unfold binary_round_aux.
  pose proof (shr_fexp_nonneg m e l H) as H1.
  destruct (shr_fexp prec emax m e l) as [mrs' e'] eqn:E1. simpl in H1.
  pose proof (shr_fexp_nonneg _ e' loc_Exact
                (round_nearest_even_nonneg _ (loc_of_shr_record mrs') H1))
    as H2.
  destruct (shr_fexp prec emax _ e' loc_Exact) as [mrs'' e''] eqn:E2.
  simpl in H2.
  destruct (shr_m mrs'') as [|q|q]; simpl; [exact I| |lia].
  match goal with |- context [if ?b then _ else _] => destruct b end;
    exact I.
Qed.

Lemma float_of_ratio_nonneg n d :
  0 <= n -> 0 < d -> nonneg_float (float_of_ratio n d).
Proof.
  intros Hn Hd. unfold float_of_ratio.
  destruct n as [|n|n]; [exact I| |lia].
  unfold SFdiv_core_binary.
  set (e' := Z.min _ _). set (m' := match _ with Z0 => _ | _ => _ end).
  assert (Hm' : 0 <= m').
  { subst m'. destruct (0 - 0 - e') as [|x|x]; try lia.
    apply Z.shiftl_nonneg. lia. }
  assert (Hq : fst (Z.div_eucl m' d) = m' / d) by reflexivity.
  destruct (Z.div_eucl m' d) as [q r]. simpl in Hq. subst q.
  apply binary_round_aux_nonneg. apply Z.div_pos; lia.
Qed.

Lemma digits_fold_nonneg l :
  forall a, 0 <= a ->
    0 <= fold_left
           (fun acc c =>
              match decimal_value c with
              | Some d => 10 * acc + Z.of_N d
              | None => 10 * acc
              end) l a.
Proof.
  induction l as [|c l IH]; intros a Ha; cbn [fold_left]; [exact Ha|].
  apply IH. destruct (decimal_value c); lia.
Qed.

Lemma digits_value_nonneg s : 0 <= digits_value s.
Proof. apply digits_fold_nonneg. lia. Qed.

Lemma numeral_nonneg s n k : numeral s = Some (n, k) -> 0 <= n.
Proof.
  unfold numeral. destruct (span_decimal s) as [ip r].
  destruct ip as [|i ip]; [discriminate|].
  destruct r as [|c fp].
  - intros E. injection E as <- _. apply digits_value_nonneg.
  - destruct ((c =? PERIOD)%N && all_decimal fp); [|discriminate].
    intros E. injection E as <- _. apply digits_value_nonneg.
Qed.

Lemma float_nonneg s f : float_ s = inr f -> nonneg_float f.
Proof.
  unfold float_. destruct (numeral s) as [[n k]|] eqn:E; [|discriminate].
  intros H. injection H as <-.
  apply float_of_ratio_nonneg; [|apply Z.pow_pos_nonneg; lia].
  eapply numeral_nonneg, E.
Qed.

Lemma float_raises_ValueError s e :
  float_ s = inl e -> exists w, e = ValueError w.
Proof.
  unfold float_. destruct (numeral s) as [[n k]|]; [discriminate|].
  intros H. injection H as <-. eauto.
Qed.

Lemma int_nonneg x q : int_ x = inr q -> 0 <= q.
Proof.
  unfold int_. destruct x as [s|]; [|discriminate].
  destruct (all_decimal s); [|discriminate].
  destruct (int_max_str_digits <? length s)%nat; [discriminate|].
  intros H. injection H as <-. apply digits_value_nonneg.
Qed.

(** ** Computations that leave standard output alone *)

Lemma silent_ret {A} (x : A) : silent (ret x).
Proof. intros out. reflexivity. Qed.

Lemma silent_lift {A} (r : result A) : silent (lift r).
Proof. intros out. reflexivity. Qed.

Lemma silent_bind {A B} (c : M A) (f : A -> M B) :
  silent c -> (forall x, silent (f x)) -> silent (bind c f).
Proof.
  intros Hc Hf out. unfold bind.
  rewrite (Hc out), (Hc []).
  destruct (fst (c [])) as [e|x]; [reflexivity|].
  cbv beta iota. apply Hf.
Qed.

Lemma silent_try_except {A} (c : M A) cls (h : exn -> M A) :
  silent c -> (forall e, silent (h e)) -> silent (try_except c cls h).
Proof.
  intros Hc Hh out. unfold try_except.
  rewrite (Hc out), (Hc []).
  destruct (fst (c [])) as [e|x]; cbn [fst]; [|reflexivity].
  destruct (isinstance e cls); [|reflexivity].
  apply Hh.
Qed.

Ltac silent_step :=
  first [ apply silent_ret | apply silent_lift
        | apply silent_bind; [|intros ?]
        | apply silent_try_except; [|intros ?] ].

Lemma silent_extract line : silent (extract line).
Proof.
  unfold extract.
  destruct (Re.match_ pattern_A line) as [m|];
    [|destruct (Re.match_ pattern_B line) as [m|]];
    repeat silent_step.
Qed.

Lemma silent_to_price ps : silent (to_price ps).
Proof.
  unfold to_price. destruct ps as [s|]; [destruct (truthy s)|];
    repeat silent_step.
Qed.

(** ** The price *)

(** [to_price] always returns, and what it returns is not negative. *)
Lemma to_price_returns ps out :
  exists f, to_price ps out = (inr f, out) /\ nonneg_float f.
Proof.
  unfold to_price. destruct ps as [s|]; [destruct (truthy s)|];
    try (exists zero; split; [reflexivity|exact I]).
  unfold try_except, lift.
  destruct (float_ (replace COMMA PERIOD s)) as [e|f] eqn:E.
  - destruct (float_raises_ValueError _ _ E) as [w ->]. simpl.
    exists zero; split; [reflexivity|exact I].
  - exists f; split; [reflexivity|]. eapply float_nonneg, E.
Qed.

(** Without a token, or with one that [float] rejects, the price is
    [0.0]. *)
Lemma to_price_zero ps out :
  ps = None
  \/ (exists s e, ps = Some s /\ float_ (replace COMMA PERIOD s) = inl e) ->
  to_price ps out = (inr zero, out).
Proof.
  intros [->|(s & e & -> & E)]; [reflexivity|].
  unfold to_price. destruct (truthy s); [|reflexivity].
  unfold try_except, lift. rewrite E.
  destruct (float_raises_ValueError _ _ E) as [w ->]. reflexivity.
Qed.

(** ** One line *)

Lemma extract_quantity_nonneg line out q nm ps o :
  extract line out = (inr (q, nm, ps), o) -> 0 <= q.
Proof.
  unfold extract, bind, lift, ret.
  destruct (Re.match_ pattern_A line) as [m|].
  - destruct (int_ (Re.group m 1)) as [e|q'] eqn:E; [discriminate|].
    destruct (strip_method (Re.group m 2)); [discriminate|].
    intros H. injection H as <- _ _ _. eapply int_nonneg, E.
  - destruct (Re.match_ pattern_B line) as [m|].
    + destruct (strip_method (Re.group m 1)); [discriminate|].
      intros H. injection H as <- _ _ _. lia.
    + intros H. injection H as <- _ _ _. lia.
Qed.

Lemma guard_name nm :
  truthy nm && negb (isspace nm) = true ->
  nm <> [] /\ exists c, In c nm /\ is_space c = false.
Proof.
  destruct nm as [|x nm]; [discriminate|].
  cbn [truthy isspace andb]. intros H. split; [discriminate|].
  apply negb_true_iff in H.
  assert (Hex : existsb (fun c => negb (is_space c)) (x :: nm) = true).
  { clear -H. induction (x :: nm) as [|c l IH]; [discriminate|].
    cbn [forallb existsb] in *.
    destruct (is_space c); [exact (IH H)|reflexivity]. }
  apply existsb_exists in Hex. destruct Hex as (c & Hin & Hc).
  exists c. split; [exact Hin|]. now apply negb_true_iff in Hc.
Qed.

Lemma try_body_eq line products out :
  try_body line products out
  = (match line_records line with
     | inr l => inr (products ++ l)
     | inl e => inl e
     end, out).
Proof.
  unfold line_records, try_body, bind.
  rewrite (silent_extract line out), (silent_extract line []).
  destruct (fst (extract line [])) as [e|[[q nm] ps]]; cbn [fst];
    [reflexivity|].
  cbv beta iota.
  destruct (to_price_returns ps []) as (f & E & _).
  rewrite (silent_to_price ps out), E. cbn [fst].
  destruct (truthy (clean_name nm) && negb (isspace (clean_name nm)));
    unfold ret; cbn [fst]; [reflexivity|].
  now rewrite app_nil_r.
Qed.

(** A line yields at most one record, and a valid one. *)
Lemma line_records_inv line l :
  line_records line = inr l ->
  l = [] \/ exists p, l = [p] /\ valid_record p.
Proof.
  unfold line_records, try_body, bind.
  destruct (extract line []) as [[e|[[q nm] ps]] o] eqn:E;
    [discriminate|].
  destruct (to_price_returns ps o) as (f & -> & Hf).
  destruct (truthy (clean_name nm) && negb (isspace (clean_name nm)))
    eqn:G; unfold ret; cbn [fst]; intros H; injection H as <-.
  - right. eexists; split; [reflexivity|].
    destruct (guard_name _ G) as [Hne Hc].
    repeat split; cbn [quantity name price].
    + eapply extract_quantity_nonneg, E.
    + apply nonneg_float_le, Hf.
    + exact Hne.
    + exact Hc.
  - now left.
Qed.

(** ** The loop *)

Lemma loop_body_eq n line products out :
  loop_body n line products out
  = (inr (products ++ emitted line), out ++ reported n line).
Proof.
  unfold loop_body, emitted, reported, skipped.
  destruct (negb (truthy (strip line)) || (length (strip line) <? 3)%nat).
  - unfold ret. now rewrite !app_nil_r.
  - unfold try_except. rewrite try_body_eq.
    destruct (line_records (strip line)) as [e|l].
    + cbn [isinstance]. unfold bind, print, ret. now rewrite app_nil_r.
    + now rewrite app_nil_r.
Qed.

Lemma for_enumerate_eq file :
  forall n products out,
    for_enumerate file n products out
    = (inr (products ++ flat_map emitted file), out ++ reports n file).
Proof.
  induction file as [|line file IH]; intros n products out.
  - cbn. now rewrite !app_nil_r.
  - cbn [for_enumerate flat_map reports]. unfold bind at 1.
    rewrite loop_body_eq, IH. now rewrite <- !app_assoc.
Qed.

Lemma parse_inventory_file_eq file out :
  parse_inventory_file file out
  = (inr (flat_map emitted file),
     out ++ reports 1 file ++ [Total (length (flat_map emitted file))]).
Proof.
  unfold parse_inventory_file, bind at 1.
  rewrite for_enumerate_eq. cbn [app].
  unfold bind, print, ret. now rewrite <- app_assoc.
Qed.

Lemma records_eq file : records file = flat_map emitted file.
Proof. unfold records. now rewrite parse_inventory_file_eq. Qed.

Lemma emitted_inv line :
  emitted line = [] \/ exists p, emitted line = [p] /\ valid_record p.
Proof.
  unfold emitted. destruct (skipped line); [now left|].
  destruct (line_records (strip line)) as [e|l] eqn:E; [now left|].
  exact (line_records_inv _ _ E).
Qed.

(** ** The matcher: what a successful run has matched *)

Module ReFacts.
Import Re.

Lemma greedy_sound cs k s :
  forall p mk res,
    greedy cs k p s mk = Some res ->
    exists w t,
      s = w ++ t /\ forallb (mem cs) w = true
      /\ k (MState (p + length w) t mk) = Some res.
Proof.
  induction s as [|c s IH]; intros p mk res H; cbn [greedy] in H.
  - exists [], []. cbn. rewrite Nat.add_0_r. auto.
  - destruct (mem cs c) eqn:Hc.
    + destruct (greedy cs k (S p) s mk) as [r|] eqn:G.
      * injection H as ->.
        destruct (IH _ _ _ G) as (w & t & -> & Hw & Hk).
        exists (c :: w), t. cbn [forallb length app]. rewrite Hc, Hw.
        rewrite Nat.add_succ_r. auto.
      * exists [], (c :: s). cbn. rewrite Nat.add_0_r. auto.
    + exists [], (c :: s). cbn. rewrite Nat.add_0_r. auto.
Qed.

Lemma lazy_sound cs k s :
  forall p mk res,
    lazy_ cs k p s mk = Some res ->
    exists w t,
      s = w ++ t /\ forallb (mem cs) w = true
      /\ k (MState (p + length w) t mk) = Some res.
Proof.
  induction s as [|c s IH]; intros p mk res H; cbn [lazy_] in H.
  - destruct (k (MState p [] mk)) as [r|] eqn:K; [|discriminate].
    exists [], []. cbn. rewrite Nat.add_0_r. rewrite K. auto.
  - destruct (k (MState p (c :: s) mk)) as [r|] eqn:K.
    + exists [], (c :: s). cbn. rewrite Nat.add_0_r, K. auto.
    + destruct (mem cs c) eqn:Hc; [|discriminate].
      destruct (IH _ _ _ H) as (w & t & -> & Hw & Hk).
      exists (c :: w), t. cbn [forallb length app]. rewrite Hc, Hw.
      rewrite Nat.add_succ_r. auto.
Qed.

(** A successful run has matched some word and then satisfied its
    continuation. *)
Lemma run_sound r :
  forall k st res,
    run r k st = Some res ->
    exists w st', matches r st w st' /\ k st' = Some res.
Proof.
  induction r as [cs|cs|cs|r1 IH1 r2 IH2|i r IH|r IH|];
    intros k [p s mk] res H; cbn [run rest pos marks] in H.
  - destruct s as [|c t]; [discriminate|].
    destruct (mem cs c) eqn:Hc; [|discriminate].
    exists [c]. eexists. split; [constructor; exact Hc|exact H].
  - destruct s as [|c t]; [discriminate|].
    destruct (mem cs c) eqn:Hc; [|discriminate].
    destruct (greedy_sound _ _ _ _ _ _ H) as (w & t' & -> & Hw & Hk).
    exists (c :: w). eexists. split; [|exact Hk].
    replace (S p + length w)%nat with (p + length (c :: w))%nat
      by (cbn [length]; lia).
    apply (matches_plus cs p (c :: w) t' mk); [discriminate|].
    cbn [forallb]. now rewrite Hc, Hw.
  - destruct (lazy_sound _ _ _ _ _ _ H) as (w & t & -> & Hw & Hk).
    exists w. eexists. split; [|exact Hk]. now constructor.
  - destruct (IH1 _ _ _ H) as (w1 & st2 & M1 & H2).
    destruct (IH2 _ _ _ H2) as (w2 & st3 & M2 & H3).
    exists (w1 ++ w2), st3. split; [econstructor; eassumption|exact H3].
  - destruct (IH _ _ _ H) as (w & st' & M & Hk).
    exists w. eexists. split; [constructor; exact M|exact Hk].
  - destruct (run r k (MState p s mk)) as [r0|] eqn:R.
    + injection H as ->.
      destruct (IH _ _ _ R) as (w & st' & M & Hk).
      exists w, st'. split; [now apply matches_opt_taken|exact Hk].
    + exists [], (MState p s mk).
      split; [apply matches_opt_skipped|exact H].
  - destruct (at_dollar s) eqn:D; [|discriminate].
    exists [], (MState p s mk). split; [now constructor|exact H].
Qed.

(** Matching moves the position by the length of the word it consumes. *)
Lemma matches_consumes r st w st' :
  matches r st w st' ->
  rest st = w ++ rest st' /\ pos st' = (pos st + length w)%nat.
Proof.
  induction 1; cbn [rest pos set_mark length app] in *;
    try (split; [reflexivity|lia]).
  - destruct IHmatches1 as [E1 P1], IHmatches2 as [E2 P2].
    rewrite E1, E2, P2, P1, length_app, <- app_assoc.
    split; [reflexivity|lia].
  - exact IHmatches.
  - exact IHmatches.
Qed.

Lemma slice_app (a w b : str) :
  slice (a ++ w ++ b) (length a) (length a + length w) = w.
Proof.
  unfold slice.
  rewrite skipn_app, skipn_all, Nat.sub_diag. cbn [skipn app].
  replace (length a + length w - length a)%nat with (length w) by lia.
  rewrite firstn_app, firstn_all, Nat.sub_diag. cbn. apply app_nil_r.
Qed.

Lemma slice_mid (s a w b : str) i j :
  s = a ++ w ++ b -> i = length a -> j = (i + length w)%nat ->
  slice s i j = w.
Proof. intros -> -> ->. apply slice_app. Qed.

(** *** The numeric token *)

Lemma is_decimal_not_comma c : is_decimal c = true -> (c =? COMMA)%N = false.
Proof.
  intros H. destruct (c =? COMMA)%N eqn:E; [|reflexivity].
  apply N.eqb_eq in E. subst c. vm_compute in H. discriminate H.
Qed.

Lemma replace_decimals w :
  forallb is_decimal w = true -> replace COMMA PERIOD w = w.
Proof.
  induction w as [|c w IH]; cbn [forallb replace map]; [reflexivity|].
  intros H. apply andb_true_iff in H. destruct H as [Hc Hw].
  rewrite (is_decimal_not_comma c Hc). f_equal. exact (IH Hw).
Qed.

Lemma replace_app a b x y :
  replace a b (x ++ y) = replace a b x ++ replace a b y.
Proof. unfold replace. apply map_app. Qed.

Lemma span_decimal_all w :
  forallb is_decimal w = true -> span_decimal w = (w, []).
Proof.
  induction w as [|c w IH]; cbn [forallb span_decimal]; [reflexivity|].
  intros H. apply andb_true_iff in H. destruct H as [Hc Hw].
  now rewrite Hc, (IH Hw).
Qed.

Lemma span_decimal_app w c t :
  forallb is_decimal w = true -> is_decimal c = false ->
  span_decimal (w ++ c :: t) = (w, c :: t).
Proof.
  intros Hw Hc. induction w as [|x w IH]; cbn [app span_decimal].
  - now rewrite Hc.
  - cbn [forallb] in Hw. apply andb_true_iff in Hw. destruct Hw as [Hx Hw].
    now rewrite Hx, (IH Hw).
Qed.

Lemma price_token_int ip :
  ip <> [] -> forallb (mem Digit) ip = true -> price_token (ip ++ []).
Proof.
  intros Hne Hip. change (forallb is_decimal ip = true) in Hip.
  rewrite app_nil_r. split; [destruct ip; [congruence|reflexivity]|].
  rewrite (replace_decimals _ Hip). unfold numeral.
  rewrite (span_decimal_all _ Hip).
  destruct ip as [|x ip]; [congruence|]. eauto.
Qed.

Lemma price_token_frac ip c fp :
  ip <> [] -> forallb (mem Digit) ip = true ->
  mem (OneOf [PERIOD; COMMA]) c = true ->
  fp <> [] -> forallb (mem Digit) fp = true ->
  price_token (ip ++ [c] ++ fp).
Proof.
  intros Hne Hip Hc Hnf Hfp.
  change (forallb is_decimal ip = true) in Hip.
  change (forallb is_decimal fp = true) in Hfp.
  split; [destruct ip; [congruence|reflexivity]|].
  rewrite !replace_app, (replace_decimals _ Hip), (replace_decimals _ Hfp).
  assert (Hsep : replace COMMA PERIOD [c] = [PERIOD]).
  { cbn [mem existsb] in Hc. cbn [replace map].
    destruct (c =? COMMA)%N eqn:E1; [reflexivity|].
    rewrite !orb_false_r in Hc.
    apply N.eqb_eq in Hc. now subst c. }
  rewrite Hsep. cbn [app]. unfold numeral.
  rewrite (span_decimal_app ip PERIOD fp Hip) by reflexivity.
  destruct ip as [|x ip]; [congruence|].
  unfold all_decimal. rewrite Hfp.
  destruct fp as [|y fp]; [congruence|].
  cbn [truthy andb]. rewrite N.eqb_refl. cbn [andb]. eauto.
Qed.

Lemma number_token_shape st w st' :
  matches number_token st w st' ->
  marks st' = marks st /\ price_token w.
Proof.
  unfold number_token. intros M.
  inversion M as [ | | |? ? ? ? ? ? ? Mi Mf| | | | ]; subst; clear M.
  inversion Mi; subst; clear Mi.
  inversion Mf as [ | | | | |? ? ? ? Mo| | ]; subst; clear Mf.
  - inversion Mo as [ | | |? ? ? ? ? ? ? Ms Md| | | | ]; subst; clear Mo.
    inversion Ms; subst; clear Ms.
    inversion Md; subst; clear Md.
    split; [reflexivity|]. now apply price_token_frac.
  - split; [reflexivity|]. now apply price_token_int.
Qed.

(** [(?:\s+(token))?$]: either nothing is consumed and no group is set, or
    blanks and a token are, and group [i] spans the token. *)
Lemma price_tail_shape i st w st' :
  matches (price_tail i) st w st' ->
  (w = [] /\ marks st' = marks st)
  \/ (exists sp tok,
        w = sp ++ tok /\ price_token tok
        /\ marks st'
           = (i, ((pos st + length sp)%nat,
                  (pos st + length sp + length tok)%nat)) :: marks st).
Proof.
  unfold price_tail. intros M.
  inversion M as [ | | |? ? ? ? ? ? ? Mo Me| | | | ]; subst; clear M.
  inversion Me; subst; clear Me. rewrite app_nil_r.
  inversion Mo as [ | | | | |? ? ? ? Mc| | ]; subst; clear Mo.
  - right.
    inversion Mc as [ | | |? ? ? sp ? tok ? Ms Mg| | | | ]; subst; clear Mc.
    inversion Ms; subst; clear Ms.
    inversion Mg as [ | | | |? ? ? ? ? Mt| | | ]; subst; clear Mg.
    destruct (number_token_shape _ _ _ Mt) as [Hm Ht].
    destruct (matches_consumes _ _ _ _ Mt) as [_ Hp].
    exists sp, tok. split; [reflexivity|]. split; [exact Ht|].
    cbn [marks set_mark pos] in *. now rewrite Hm, Hp.
  - left. split; reflexivity.
Qed.

(** *** The two patterns *)

Ltac slice_at a w :=
  eapply (slice_mid _ a w);
  [ rewrite <- ?app_assoc; cbn [app]; reflexivity
  | rewrite ?length_app; cbn [length]; lia
  | lia ].

Lemma all_decimal_intro d :
  d <> [] -> forallb (mem Digit) d = true -> all_decimal d = true.
Proof.
  intros Hne Hd. change (forallb is_decimal d = true) in Hd.
  unfold all_decimal. rewrite Hd. destruct d; [congruence|reflexivity].
Qed.

Lemma pattern_A_groups s m :
  match_ pattern_A s = Some m ->
  (exists d, group m 1 = Some d /\ all_decimal d = true)
  /\ (exists body, group m 2 = Some body)
  /\ (group m 3 = None
      \/ exists tok, group m 3 = Some tok /\ price_token tok).
Proof.
  unfold match_.
  destruct (run pattern_A Some (MState 0 s [])) as [st|] eqn:R;
    [|discriminate].
  intros H. injection H as <-.
  apply run_sound in R. destruct R as (w & st' & M & E).
  injection E as ->. unfold pattern_A in M.
  inversion M as [ | | |? ? ? ? ? ? ? M1 M2| | | | ]; subst; clear M.
  inversion M1 as [ | | | |? ? ? ? ? Md| | | ]; subst; clear M1.
  inversion Md; subst; clear Md.
  inversion M2 as [ | | |? ? ? ? ? ? ? Ms M3| | | | ]; subst; clear M2.
  inversion Ms; subst; clear Ms.
  inversion M3 as [ | | |? ? ? ? ? ? ? Mg Mt| | | | ]; subst; clear M3.
  inversion Mg as [ | | | |? ? ? ? ? Mb| | | ]; subst; clear Mg.
  inversion Mb; subst; clear Mb.
  cbn [pos set_mark marks rest] in *.
  match goal with
  | Hne : ?d <> [],
    HD : forallb (mem Digit) ?d = true,
    HS : forallb (mem Space) ?sp = true,
    HB : forallb (mem Dot) ?b = true |- _ =>
      pose proof (all_decimal_intro d Hne HD) as Hall;
      rename d into digits; rename sp into blanks; rename b into body
  end.
  destruct (matches_consumes _ _ _ _ Mt) as [Ht _].
  destruct (price_tail_shape _ _ _ _ Mt)
    as [[-> Hm]|(sp2 & tok & -> & Htok & Hm)];
    cbn [marks pos set_mark rest] in Hm, Ht; subst;
    unfold group; cbn [regs subject]; rewrite Hm; cbn [lookup Nat.eqb].
  - split; [exists digits; split; [f_equal; slice_at (@nil char) digits
                                  |exact Hall]|].
    split; [exists body; f_equal; slice_at (digits ++ blanks) body|].
    now left.
  - split; [exists digits; split; [f_equal; slice_at (@nil char) digits
                                  |exact Hall]|].
    split; [exists body; f_equal; slice_at (digits ++ blanks) body|].
    right. exists tok. split; [|exact Htok].
    f_equal. slice_at (digits ++ blanks ++ body ++ sp2) tok.
Qed.

Lemma pattern_B_groups s m :
  match_ pattern_B s = Some m ->
  (exists body, group m 1 = Some body)
  /\ (group m 2 = None
      \/ exists tok, group m 2 = Some tok /\ price_token tok).
Proof.
  unfold match_.
  destruct (run pattern_B Some (MState 0 s [])) as [st|] eqn:R;
    [|discriminate].
  intros H. injection H as <-.
  apply run_sound in R. destruct R as (w & st' & M & E).
  injection E as ->. unfold pattern_B in M.
  inversion M as [ | | |? ? ? ? ? ? ? Mg Mt| | | | ]; subst; clear M.
  inversion Mg as [ | | | |? ? ? ? ? Mb| | | ]; subst; clear Mg.
  inversion Mb; subst; clear Mb.
  cbn [pos set_mark marks rest] in *.
  match goal with
  | HB : forallb (mem Dot) ?b = true |- _ => rename b into body
  end.
  destruct (matches_consumes _ _ _ _ Mt) as [Ht _].
  destruct (price_tail_shape _ _ _ _ Mt)
    as [[-> Hm]|(sp2 & tok & -> & Htok & Hm)];
    cbn [marks pos set_mark rest] in Hm, Ht; subst;
    unfold group; cbn [regs subject]; rewrite Hm; cbn [lookup Nat.eqb].
  - split; [eauto|now left].
  - split; [eauto|]. right. exists tok. split; [|exact Htok].
    f_equal. slice_at (body ++ sp2) tok.
Qed.

(** *** When pattern B matches *)

(** [cs*?] succeeds as soon as the continuation accepts the end of a word
    made of characters of [cs]. *)
Lemma lazy_complete cs k s :
  forallb (mem cs) s = true ->
  forall p mk,
    (forall q, k (MState q [] mk) <> None) ->
    lazy_ cs k p s mk <> None.
Proof.
  induction s as [|c s IH]; intros Hs p mk Hk; cbn [lazy_].
  - specialize (Hk p). destruct (k (MState p [] mk)); congruence.
  - destruct (k (MState p (c :: s) mk)); [discriminate|].
    cbn [forallb] in Hs. apply andb_true_iff in Hs. destruct Hs as [-> Hs].
    now apply IH.
Qed.

Lemma price_tail_at_end i p mk :
  run (price_tail i) Some (MState p [] mk) = Some (MState p [] mk).
Proof. reflexivity. Qed.

Lemma pattern_B_matches s :
  forallb (mem Dot) s = true -> match_ pattern_B s <> None.
Proof.
  intros Hs. unfold match_, pattern_B. cbn [run pos rest marks].
  match goal with
  | |- match ?l with _ => _ end <> None =>
      assert (H : l <> None); [|destruct l; congruence]
  end.
  apply lazy_complete; [exact Hs|].
  intros q. unfold set_mark. cbn [pos rest marks].
  rewrite price_tail_at_end. discriminate.
Qed.

End ReFacts.

(** ** What the cascade hands to [int] and [float] *)

(** A captured price is always a token that [float] reads. *)
Lemma extract_price_token line out q nm ps o :
  extract line out = (inr (q, nm, ps), o) ->
  ps = None \/ exists tok, ps = Some tok /\ price_token tok.
Proof.
  unfold extract, bind, lift, ret.
  destruct (Re.match_ pattern_A line) as [m|] eqn:A.
  - destruct (ReFacts.pattern_A_groups _ _ A) as (_ & _ & G3).
    destruct (int_ (Re.group m 1)); [discriminate|].
    destruct (strip_method (Re.group m 2)); [discriminate|].
    intros H. injection H as _ _ <- _. exact G3.
  - destruct (Re.match_ pattern_B line) as [m|] eqn:B.
    + destruct (ReFacts.pattern_B_groups _ _ B) as (_ & G2).
      destruct (strip_method (Re.group m 1)); [discriminate|].
      intros H. injection H as _ _ <- _. exact G2.
    + intros H. injection H as _ _ <- _. now left.
Qed.

Lemma price_token_converts tok :
  price_token tok ->
  exists f, float_ (replace COMMA PERIOD tok) = inr f.
Proof.
  intros (_ & n & k & E). unfold float_. rewrite E. eauto.
Qed.

(** The only exception the cascade raises is the digit limit of [int]. *)
Lemma extract_raises line out e o :
  extract line out = (inl e, o) ->
  exists n,
    e = ValueError (ExceedsDigitLimit n) /\ (int_max_str_digits < n)%nat.
Proof.
  unfold extract, bind, lift, ret.
  destruct (Re.match_ pattern_A line) as [m|] eqn:A.
  - destruct (ReFacts.pattern_A_groups _ _ A)
      as ((d & -> & Hd) & (body & ->) & _).
    unfold int_. rewrite Hd. cbn [strip_method].
    destruct (int_max_str_digits <? length d)%nat eqn:L; [|discriminate].
    intros H. injection H as <- _. apply Nat.ltb_lt in L. eauto.
  - destruct (Re.match_ pattern_B line) as [m|] eqn:B; [|discriminate].
    destruct (ReFacts.pattern_B_groups _ _ B) as ((body & ->) & _).
    discriminate.
Qed.

Lemma try_body_raises line products out e o :
  try_body line products out = (inl e, o) ->
  exists n,
    e = ValueError (ExceedsDigitLimit n) /\ (int_max_str_digits < n)%nat.
Proof.
  unfold try_body, bind.
  destruct (extract line out) as [[e'|[[q nm] ps]] o'] eqn:E.
  - intros H. injection H as <- _. eapply extract_raises, E.
  - destruct (to_price_returns ps o') as (f & -> & _).
    destruct (truthy (clean_name nm) && negb (isspace (clean_name nm)));
      discriminate.
Qed.

(** ** The claims of the specification *)

(** C1. The single line "12 Caderno 20 folhas 5.50" yields exactly one
    record, quantity 12, name "Caderno 20 folhas", price 5.50: pattern A
    matches, its groups are "12", "Caderno 20 folhas" and "5.50", so the
    "20" inside the name is not taken for the price. The price is the
    float of the literal [5.50], which is exactly 11/2. *)
Theorem quantity_prefixed_line :
  let line := u "12 Caderno 20 folhas 5.50" in
  (forall out,
      parse_inventory_file [line] out
      = (inr [Product 12 (u "Caderno 20 folhas") float_5_50],
         out ++ [Total 1]))
  /\ (exists m,
        Re.match_ pattern_A line = Some m
        /\ Re.group m 1 = Some (u "12")
        /\ Re.group m 2 = Some (u "Caderno 20 folhas")
        /\ Re.group m 3 = Some (u "5.50"))
  /\ float_ (u "5.50") = inr float_5_50
  /\ represents float_5_50 11 2.
Proof.
  cbv zeta. split; [|split; [|split]].
  - intros out. rewrite parse_inventory_file_eq. vm_compute. reflexivity.
  - eexists. split; [vm_compute; reflexivity|].
    repeat split; vm_compute; reflexivity.
  - vm_compute. reflexivity.
  - vm_compute. reflexivity.
Qed.

(** C2. The single line "Caderno 20 folhas 5,50" yields exactly one
    record, quantity 1, name "Caderno 20 folhas", price 5.50: pattern A
    does not match, pattern B captures "Caderno 20 folhas" and "5,50", and
    the comma becomes a period before the conversion. *)
Theorem line_without_quantity :
  let line := u "Caderno 20 folhas 5,50" in
  (forall out,
      parse_inventory_file [line] out
      = (inr [Product 1 (u "Caderno 20 folhas") float_5_50],
         out ++ [Total 1]))
  /\ Re.match_ pattern_A line = None
  /\ (exists m,
        Re.match_ pattern_B line = Some m
        /\ Re.group m 1 = Some (u "Caderno 20 folhas")
        /\ Re.group m 2 = Some (u "5,50"))
  /\ replace COMMA PERIOD (u "5,50") = u "5.50"
  /\ float_ (u "5.50") = inr float_5_50.
Proof.
  cbv zeta. split; [|split; [|split; [|split]]].
  - intros out. rewrite parse_inventory_file_eq. vm_compute. reflexivity.
  - vm_compute. reflexivity.
  - eexists. split; [vm_compute; reflexivity|].
    split; vm_compute; reflexivity.
  - vm_compute. reflexivity.
  - vm_compute. reflexivity.
Qed.

(** C3. Whenever the cascade isolates no numeric token (no token was
    captured, or [float] rejects the captured one once its comma is
    replaced), the [try] body either emits nothing or emits exactly the
    record of the extracted quantity and cleaned name with price 0.0. And
    the single line "3 Lápis ?" yields exactly one record: quantity 3, name
    "Lápis ?" (the "?" stays in the name), price 0.0. *)
Theorem price_defaults_to_zero :
  (forall line out q nm ps o,
      extract line out = (inr (q, nm, ps), o) ->
      ps = None
      \/ (exists s e,
            ps = Some s /\ float_ (replace COMMA PERIOD s) = inl e) ->
      forall products,
        try_body line products out = (inr products, out)
        \/ try_body line products out
           = (inr (products ++ [Product q (clean_name nm) zero]), out))
  /\ (forall out,
        parse_inventory_file [u "3 Lápis ?"] out
        = (inr [Product 3 (u "Lápis ?") zero], out ++ [Total 1])).
Proof.
  split.
  - intros line out q nm ps o E Hps products.
    unfold try_body, bind. rewrite E.
    pose proof (silent_extract line out) as Hs. rewrite E in Hs.
    injection Hs as _ ->.
    rewrite (to_price_zero ps out Hps).
    destruct (truthy (clean_name nm) && negb (isspace (clean_name nm)));
      [right|left]; reflexivity.
  - intros out. rewrite parse_inventory_file_eq. vm_compute. reflexivity.
Qed.

Lemma price_defaults_to_zero_witness :
  let line := u "3 Lápis ?" in
  extract line [] = (inr (3, u "Lápis ?", None), [])
  /\ (try_body line [] [] = (inr [], [])
      \/ try_body line [] []
         = (inr ([] ++ [Product 3 (clean_name (u "Lápis ?")) zero]), [])).
Proof.
  cbv zeta. split; [vm_compute; reflexivity|].
  apply (proj1 price_defaults_to_zero (u "3 Lápis ?") [] 3 (u "Lápis ?")
           None []).
  - vm_compute. reflexivity.
  - left. reflexivity.
Defined.

(** C4. [parse_inventory_file] always returns a list of records: no
    exception leaves it. When the [try] body raises on a line that is not
    skipped, the turn of the loop ends normally with [products] unchanged
    and one report on standard output, and the loop goes on with the next
    line. *)
Theorem failures_stay_in_their_line :
  (forall file out,
      exists products out',
        parse_inventory_file file out = (inr products, out'))
  /\ (forall n line products out e out',
        skipped line = false ->
        try_body (strip line) products out = (inl e, out') ->
        loop_body n line products out
        = (inr products, out' ++ [ErrorLine n (strip line) e])
        /\ forall file',
            for_enumerate (line :: file') n products out
            = for_enumerate file' (S n) products
                (out' ++ [ErrorLine n (strip line) e])).
Proof.
  split.
  - intros file out. rewrite parse_inventory_file_eq. eauto.
  - intros n line products out e out' Hs E.
    assert (L : loop_body n line products out
                = (inr products, out' ++ [ErrorLine n (strip line) e])).
    { unfold loop_body. unfold skipped in Hs. rewrite Hs.
      unfold try_except. rewrite E. reflexivity. }
    split; [exact L|].
    intros file'. cbn [for_enumerate]. unfold bind at 1. now rewrite L.
Qed.

(** A line of 4301 digits and a name: [int] refuses the quantity. *)
Lemma failures_stay_in_their_line_witness :
  let line := repeat 49%N 4301 ++ u " x" in
  let e := ValueError (ExceedsDigitLimit 4301) in
  skipped line = false
  /\ try_body (strip line) [] [] = (inl e, [])
  /\ loop_body 1 line [] [] = (inr [], [] ++ [ErrorLine 1 (strip line) e])
  /\ for_enumerate [line; u "2 Cola 3"] 1 [] []
     = for_enumerate [u "2 Cola 3"] 2 [] ([] ++ [ErrorLine 1 (strip line) e]).
Proof.
  cbv zeta.
  assert (Hs : skipped (repeat 49%N 4301 ++ u " x") = false)
    by (vm_compute; reflexivity).
  assert (Hb : try_body (strip (repeat 49%N 4301 ++ u " x")) [] []
               = (inl (ValueError (ExceedsDigitLimit 4301)), []))
    by (vm_compute; reflexivity).
  destruct (proj2 failures_stay_in_their_line 1%nat _ [] [] _ [] Hs Hb)
    as [H1 H2].
  split; [exact Hs|]. split; [exact Hb|]. split; [exact H1|].
  exact (H2 [u "2 Cola 3"]).
Defined.

(** C5. Every record a run returns has a quantity that is not negative,
    a price that is at least 0.0 (so not a NaN either), and a name that is
    not empty and has a character that is not white space. *)
Theorem emitted_records_are_valid :
  forall file out,
    exists products out',
      parse_inventory_file file out = (inr products, out')
      /\ Forall valid_record products.
Proof.
  intros file out. rewrite parse_inventory_file_eq.
  do 2 eexists. split; [reflexivity|].
  induction file as [|line file IH]; cbn [flat_map]; [constructor|].
  apply Forall_app. split; [|exact IH].
  destruct (emitted_inv line) as [->|(p & -> & Hp)]; auto.
Qed.

(** C6. The single line "Borracha." yields exactly one record: quantity
    1, name "Borracha", price 0.0. In general the cleaned name is the
    stripped name when that does not end with a period; when the stripped
    name is [t] followed by a period, the cleaned name is [t] stripped;
    and of two final periods only the last one goes. *)
Theorem name_cleanup :
  (forall out,
      parse_inventory_file [u "Borracha."] out
      = (inr [Product 1 (u "Borracha") zero], out ++ [Total 1]))
  /\ (forall nm,
        endswith (strip nm) PERIOD = false -> clean_name nm = strip nm)
  /\ (forall nm t,
        strip nm = t ++ [PERIOD] -> clean_name nm = strip t)
  /\ (forall nm t,
        strip nm = t ++ [PERIOD; PERIOD] -> clean_name nm = t ++ [PERIOD]).
Proof.
  split; [|split; [|split]].
  - intros out. rewrite parse_inventory_file_eq. vm_compute. reflexivity.
  - intros nm H. unfold clean_name. now rewrite H.
  - intros nm t H. unfold clean_name.
    rewrite H, endswith_snoc, N.eqb_refl, drop_last_snoc. reflexivity.
  - intros nm t H. unfold clean_name.
    change (t ++ [PERIOD; PERIOD]) with (t ++ [PERIOD] ++ [PERIOD]) in H.
    rewrite app_assoc in H.
    rewrite H, endswith_snoc, N.eqb_refl, drop_last_snoc.
    unfold strip.
    assert (Hl : lstrip (t ++ [PERIOD]) = t ++ [PERIOD]).
    { destruct t as [|c t].
      - reflexivity.
      - apply lstrip_head_nonspace. eapply strip_cons. exact H. }
    rewrite Hl. apply rstrip_snoc_nonspace. reflexivity.
Qed.

Lemma name_cleanup_witness :
  (endswith (strip (u " Cola ")) PERIOD = false
   /\ clean_name (u " Cola ") = strip (u " Cola "))
  /\ (strip (u " Borracha .  ") = u "Borracha " ++ [PERIOD]
      /\ clean_name (u " Borracha .  ") = strip (u "Borracha "))
  /\ (strip (u "etc..") = u "etc" ++ [PERIOD; PERIOD]
      /\ clean_name (u "etc..") = u "etc" ++ [PERIOD]).
Proof.
  destruct name_cleanup as (_ & H1 & H2 & H3).
  split; [|split].
  - split; [reflexivity|]. apply H1. reflexivity.
  - split; [reflexivity|]. apply H2. reflexivity.
  - split; [reflexivity|]. apply H3. reflexivity.
Defined.

(** C7. A line that is empty or shorter than three characters once
    stripped leaves the loop state as it was: no record is added and
    nothing is written to standard output. *)
Theorem short_lines_are_skipped :
  forall n line products out,
    (length (strip line) < 3)%nat ->
    loop_body n line products out = (inr products, out).
Proof.
  intros n line products out H. unfold loop_body.
  apply Nat.ltb_lt in H. rewrite H, orb_true_r. reflexivity.
Qed.

Lemma short_lines_are_skipped_witness :
  (length (strip (u "  ab  ")) < 3)%nat
  /\ loop_body 4 (u "  ab  ") [] [Total 0] = (inr [], [Total 0]).
Proof.
  split; [vm_compute; lia|].
  apply short_lines_are_skipped. vm_compute. lia.
Defined.

(** C8. The records of a run do not depend on the standard output it
    starts from; they are the records of its lines, each parsed alone, in
    the order of the lines; a line yields at most one record; and parsing
    [xs ++ ys] gives the records of [xs] followed by those of [ys]. *)
Theorem parsing_is_line_local :
  (forall file out, fst (parse_inventory_file file out) = inr (records file))
  /\ (forall file, records file = flat_map (fun line => records [line]) file)
  /\ (forall line, (length (records [line]) <= 1)%nat)
  /\ (forall xs ys, records (xs ++ ys) = records xs ++ records ys).
Proof.
  split; [|split; [|split]].
  - intros file out. now rewrite parse_inventory_file_eq, records_eq.
  - intros file. rewrite records_eq. apply flat_map_ext.
    intros line. rewrite records_eq. cbn. now rewrite app_nil_r.
  - intros line. rewrite records_eq. cbn. rewrite app_nil_r.
    destruct (emitted_inv line) as [->|(p & -> & _)]; cbn; lia.
  - intros xs ys. rewrite !records_eq. apply flat_map_app.
Qed.

(** C9. Two runs on the same lines return the same records, whatever was
    written before: run again from the standard output the first run left,
    or from any other one, the parser returns the same result. *)
Theorem parsing_is_repeatable :
  forall file out,
    fst (parse_inventory_file file (snd (parse_inventory_file file out)))
    = fst (parse_inventory_file file out)
    /\ forall out',
        fst (parse_inventory_file file out')
        = fst (parse_inventory_file file out).
Proof.
  intros file out. split; [|intros out'];
    now rewrite !parse_inventory_file_eq.
Qed.

(** C10. On a line without a newline character, [re.match] with pattern
    B returns a match object, so the cascade never reaches its last branch
    (the whole line as the name): it returns what pattern A or pattern B
    captured. *)
Theorem pattern_B_always_matches :
  forall line,
    ~ In LF line ->
    (exists m, Re.match_ pattern_B line = Some m)
    /\ forall out,
        (exists m,
            Re.match_ pattern_A line = Some m
            /\ extract line out
               = (quantity <- lift (int_ (Re.group m 1)) ;;
                  name <- lift (strip_method (Re.group m 2)) ;;
                  ret (quantity, name, Re.group m 3)) out)
        \/ (exists m,
              Re.match_ pattern_A line = None
              /\ Re.match_ pattern_B line = Some m
              /\ extract line out
                 = (name <- lift (strip_method (Re.group m 1)) ;;
                    ret (1, name, Re.group m 2)) out).
Proof.
  intros line Hnl.
  assert (Hdot : forallb (Re.mem Re.Dot) line = true).
  { apply forallb_forall. intros c Hc. cbn [Re.mem].
    apply negb_true_iff, N.eqb_neq. intros ->. exact (Hnl Hc). }
  pose proof (ReFacts.pattern_B_matches line Hdot) as HB.
  destruct (Re.match_ pattern_B line) as [mB|] eqn:B; [|congruence].
  split; [eauto|].
  intros out. unfold extract.
  destruct (Re.match_ pattern_A line) as [mA|] eqn:A.
  - left. exists mA. split; reflexivity.
  - right. exists mB. rewrite B. repeat split; reflexivity.
Qed.

Lemma pattern_B_always_matches_witness :
  let line := u "Borracha." in
  ~ In LF line
  /\ exists m, Re.match_ pattern_B line = Some m.
Proof.
  cbv zeta.
  assert (H : ~ In LF (u "Borracha.")).
  { intros H. vm_compute in H. repeat destruct H as [H|H]; try discriminate H.
    exact H. }
  split; [exact H|].
  exact (proj1 (pattern_B_always_matches (u "Borracha.") H)).
Defined.

(** With a newline inside, pattern B does fail and the last branch runs:
    the lines of a file never have one. *)
Example last_branch_needs_a_newline :
  Re.match_ pattern_B [97; 98; LF; 99; 100]%N = None
  /\ fst (extract [97; 98; LF; 99; 100]%N [])
     = inr (1, [97; 98; LF; 99; 100]%N, None).
Proof. split; vm_compute; reflexivity. Qed.

(** * Further properties of the parser *)

Module ReMore.
Import Re ReFacts.

Lemma space_cases c :
  is_space c = true ->
  In c [9; 10; 11; 12; 13; 28; 29; 30; 31; 32; 133; 160; 5760;
        8232; 8233; 8239; 8287; 12288;
        8192; 8193; 8194; 8195; 8196; 8197; 8198; 8199; 8200; 8201; 8202]%N.
Proof.
  unfold is_space. intros H. apply orb_true_iff in H. destruct H as [H|H].
  - apply existsb_exists in H. destruct H as (x & Hin & Hx).
    apply N.eqb_eq in Hx. subst x.
    apply in_or_app with (l := [9; 10; 11; 12; 13; 28; 29; 30; 31; 32; 133;
                                160; 5760; 8232; 8233; 8239; 8287; 12288]%N).
    now left.
  - apply andb_true_iff in H. destruct H as [H1 H2].
    apply N.leb_le in H1, H2.
    assert (E : (c = 8192 \/ c = 8193 \/ c = 8194 \/ c = 8195 \/ c = 8196
                 \/ c = 8197 \/ c = 8198 \/ c = 8199 \/ c = 8200
                 \/ c = 8201 \/ c = 8202)%N) by lia.
    cbn [In].
    repeat (destruct E as [E|E]; [subst c; tauto|]). subst c. tauto.
Qed.

Lemma space_not_token_char c : is_space c = true -> token_char c = false.
Proof.
  intros H. apply space_cases in H. cbn [In] in H.
  repeat (destruct H as [H|H]; [subst c; vm_compute; reflexivity|]).
  destruct H.
Qed.

Lemma space_not_decimal c : is_space c = true -> is_decimal c = false.
Proof.
  intros H. apply space_not_token_char in H. unfold token_char in H.
  apply orb_false_iff in H. destruct H as [H _].
  apply orb_false_iff in H. tauto.
Qed.

Lemma decimal_not_space c : is_decimal c = true -> is_space c = false.
Proof.
  intros H. destruct (is_space c) eqn:E; [|reflexivity].
  apply space_not_decimal in E. congruence.
Qed.

Lemma LF_is_space : is_space LF = true.
Proof. reflexivity. Qed.

(** ** Completeness of the repetitions *)

Lemma greedy_max cs k w :
  forall t p mk r,
    forallb (mem cs) w = true -> stops cs t ->
    k (MState (p + length w) t mk) = Some r ->
    greedy cs k p (w ++ t) mk = Some r.
Proof.
  induction w as [|c w IH]; intros t p mk r Hw Ht Hk.
  - cbn [app length] in *. rewrite Nat.add_0_r in Hk.
    destruct t as [|x t]; cbn [greedy]; [exact Hk|].
    cbn [stops] in Ht. now rewrite Ht.
  - cbn [forallb] in Hw. apply andb_true_iff in Hw. destruct Hw as [Hc Hw].
    cbn [app greedy]. rewrite Hc.
    rewrite (IH t (S p) mk r Hw Ht); [reflexivity|].
    cbn [length] in Hk. now rewrite Nat.add_succ_r in Hk.
Qed.

Lemma plus_max cs k w t p mk r :
  w <> [] -> forallb (mem cs) w = true -> stops cs t ->
  k (MState (p + length w) t mk) = Some r ->
  run (Plus cs) k (MState p (w ++ t) mk) = Some r.
Proof.
  intros Hne Hw Ht Hk. destruct w as [|c w]; [congruence|].
  cbn [forallb] in Hw. apply andb_true_iff in Hw. destruct Hw as [Hc Hw].
  cbn [run rest pos marks app]. rewrite Hc.
  apply greedy_max; [exact Hw|exact Ht|].
  cbn [length] in Hk. now rewrite Nat.add_succ_r in Hk.
Qed.

Lemma lazy_first cs k w :
  forall t p mk r,
    forallb (mem cs) w = true ->
    (forall i, (i < length w)%nat ->
               k (MState (p + i) (skipn i w ++ t) mk) = None) ->
    k (MState (p + length w) t mk) = Some r ->
    lazy_ cs k p (w ++ t) mk = Some r.
Proof.
  induction w as [|c w IH]; intros t p mk r Hw Hnone Hk.
  - cbn [app length] in *. rewrite Nat.add_0_r in Hk.
    destruct t; cbn [lazy_]; now rewrite Hk.
  - cbn [forallb] in Hw. apply andb_true_iff in Hw. destruct Hw as [Hc Hw].
    cbn [app lazy_].
    pose proof (Hnone 0%nat ltac:(cbn [length]; lia)) as H0.
    cbn [skipn app] in H0. rewrite Nat.add_0_r in H0. rewrite H0, Hc.
    apply IH; [exact Hw| |].
    + intros i Hi. specialize (Hnone (S i) ltac:(cbn [length]; lia)).
      cbn [skipn] in Hnone. now rewrite Nat.add_succ_r in Hnone.
    + cbn [length] in Hk. now rewrite Nat.add_succ_r in Hk.
Qed.

(** ** The tail [(?:\s+(token))?$] *)

Lemma all_decimal_parts d :
  all_decimal d = true -> d <> [] /\ forallb (mem Digit) d = true.
Proof.
  unfold all_decimal. intros H. apply andb_true_iff in H. destruct H as [T F].
  split; [destruct d; [discriminate|congruence]|exact F].
Qed.

Lemma run_Cat r1 r2 k st : run (Cat r1 r2) k st = run r1 (run r2 k) st.
Proof. reflexivity. Qed.

Lemma run_Opt r k st :
  run (Opt r) k st
  = match run r k st with Some res => Some res | None => k st end.
Proof. reflexivity. Qed.

Lemma run_Group i r k st :
  run (Group i r) k st = run r (fun st' => k (set_mark i (pos st) st')) st.
Proof. reflexivity. Qed.

Lemma run_Set1 cs k p c t mk :
  mem cs c = true ->
  run (Set1 cs) k (MState p (c :: t) mk) = k (MState (S p) t mk).
Proof. intros H. cbn [run rest]. now rewrite H. Qed.

Lemma plus_max_end cs k w p mk r :
  w <> [] -> forallb (mem cs) w = true ->
  k (MState (p + length w) [] mk) = Some r ->
  run (Plus cs) k (MState p w mk) = Some r.
Proof.
  intros Hne Hw Hk.
  pose proof (plus_max cs k w [] p mk r Hne Hw I Hk) as P.
  now rewrite app_nil_r in P.
Qed.

Lemma number_token_complete k tok p mk r :
  numeric_token tok ->
  k (MState (p + length tok) [] mk) = Some r ->
  run number_token k (MState p tok mk) = Some r.
Proof.
  intros (ip & Hip & Htok) Hk.
  destruct (all_decimal_parts _ Hip) as [Hne Hd].
  unfold number_token. rewrite run_Cat.
  destruct Htok as [->|(sep & fp & Hsep & Hfp & ->)].
  - apply plus_max_end; [exact Hne|exact Hd|].
    rewrite run_Opt, run_Cat. cbn [run rest]. exact Hk.
  - destruct (all_decimal_parts _ Hfp) as [Hnf Hdf].
    apply plus_max; [exact Hne|exact Hd| |].
    + cbn [stops mem]. destruct Hsep as [->| ->]; reflexivity.
    + assert (Hm : mem (OneOf [PERIOD; COMMA]) sep = true)
        by (destruct Hsep as [->| ->]; reflexivity).
      rewrite run_Opt, run_Cat, (run_Set1 _ _ _ _ _ _ Hm).
      rewrite (plus_max_end Digit k fp _ mk r Hnf Hdf); [reflexivity|].
      rewrite <- Hk. do 2 f_equal. rewrite length_app. cbn [length]. lia.
Qed.

Lemma numeric_token_head tok :
  numeric_token tok -> exists c t, tok = c :: t /\ is_decimal c = true.
Proof.
  intros (ip & Hip & Htok).
  destruct (all_decimal_parts _ Hip) as [Hne Hd].
  destruct ip as [|c ip]; [congruence|].
  cbn [forallb] in Hd. apply andb_true_iff in Hd. destruct Hd as [Hc _].
  destruct Htok as [->|(sep & fp & _ & _ & ->)]; cbn [app]; eauto.
Qed.

Lemma tail_some i p mk sp tok :
  blanks sp -> numeric_token tok ->
  run (price_tail i) Some (MState p (sp ++ tok) mk)
  = Some (MState (p + length sp + length tok) []
            ((i, ((p + length sp)%nat, (p + length sp + length tok)%nat))
               :: mk)).
Proof.
  intros [Hne Hsp] Htok. unfold price_tail.
  rewrite run_Cat, run_Opt, run_Cat.
  erewrite plus_max; [reflexivity|exact Hne|exact Hsp| |].
  - destruct (numeric_token_head _ Htok) as (c & t & -> & Hc).
    cbn [stops mem]. now apply decimal_not_space.
  - rewrite run_Group. apply number_token_complete; [exact Htok|].
    reflexivity.
Qed.

Lemma token_char_digits l :
  forallb (mem Digit) l = true -> forallb token_char l = true.
Proof.
  intros H. apply forallb_forall. intros x Hx.
  rewrite forallb_forall in H. specialize (H x Hx). cbn [mem] in H.
  unfold token_char. now rewrite H.
Qed.

Lemma token_char_sep c :
  mem (OneOf [PERIOD; COMMA]) c = true -> token_char c = true.
Proof.
  cbn [mem existsb]. rewrite orb_false_r. unfold token_char.
  intros H. rewrite <- orb_assoc, H. apply orb_true_r.
Qed.

Lemma last_digit l :
  l <> [] -> forallb (mem Digit) l = true ->
  exists t c, l = t ++ [c] /\ is_decimal c = true.
Proof.
  intros Hne H. destruct (exists_last Hne) as (t & c & ->).
  exists t, c. split; [reflexivity|].
  rewrite forallb_app in H. apply andb_true_iff in H. destruct H as [_ H].
  cbn [forallb mem] in H. now rewrite andb_true_r in H.
Qed.

Lemma number_token_shape' st w st' :
  matches number_token st w st' ->
  forallb token_char w = true
  /\ exists t c, w = t ++ [c] /\ is_decimal c = true.
Proof.
  unfold number_token. intros M.
  inversion M as [ | | |? ? ? ? ? ? ? Mi Mf| | | | ]; subst; clear M.
  inversion Mi as [ |? ? ip ? ? Hni Hip| | | | | | ]; subst; clear Mi.
  inversion Mf as [ | | | | |? ? ? ? Mo| | ]; subst; clear Mf.
  - inversion Mo as [ | | |? ? ? ? ? ? ? Ms Md| | | | ]; subst; clear Mo.
    inversion Ms as [? ? ? ? ? Hsep| | | | | | | ]; subst; clear Ms.
    inversion Md as [ |? ? fp ? ? Hnf Hfp| | | | | | ]; subst; clear Md.
    split.
    + rewrite !forallb_app, (token_char_digits _ Hip),
        (token_char_digits _ Hfp).
      cbn [forallb]. now rewrite (token_char_sep _ Hsep).
    + destruct (last_digit _ Hnf Hfp) as (t' & x & E & Hx).
      rewrite E. eexists _, x. split; [|exact Hx].
      rewrite !app_assoc. reflexivity.
  - rewrite app_nil_r.
    split; [exact (token_char_digits _ Hip)|exact (last_digit _ Hni Hip)].
Qed.

Lemma number_token_numeric st w st' :
  matches number_token st w st' -> numeric_token w.
Proof.
  unfold number_token. intros M.
  inversion M as [ | | |? ? ? ? ? ? ? Mi Mf| | | | ]; subst; clear M.
  inversion Mi as [ |? ? ip ? ? Hni Hip| | | | | | ]; subst; clear Mi.
  inversion Mf as [ | | | | |? ? ? ? Mo| | ]; subst; clear Mf.
  - inversion Mo as [ | | |? ? ? ? ? ? ? Ms Md| | | | ]; subst; clear Mo.
    inversion Ms as [? ? ? ? ? Hsep| | | | | | | ]; subst; clear Ms.
    inversion Md as [ |? ? fp ? ? Hnf Hfp| | | | | | ]; subst; clear Md.
    match type of Hip with forallb _ ?d = true => exists d end.
    split; [exact (all_decimal_intro _ Hni Hip)|]. right.
    eexists _, _.
    split; [|split; [exact (all_decimal_intro _ Hnf Hfp)|reflexivity]].
    cbn [mem existsb] in Hsep. rewrite orb_false_r in Hsep.
    apply orb_true_iff in Hsep. destruct Hsep as [H|H];
      apply N.eqb_eq in H; auto.
  - match type of Hip with forallb _ ?d = true => exists d end.
    split; [exact (all_decimal_intro _ Hni Hip)|]. left.
    now rewrite app_nil_r.
Qed.

Lemma price_tail_shape' i st w st' :
  matches (price_tail i) st w st' ->
  at_dollar (rest st') = true
  /\ (w = []
      \/ exists sp tok,
           w = sp ++ tok /\ sp <> [] /\ forallb is_space sp = true
           /\ forallb token_char tok = true
           /\ numeric_token tok
           /\ exists t c, tok = t ++ [c] /\ is_decimal c = true).
Proof.
  unfold price_tail. intros M.
  inversion M as [ | | |? ? ? ? ? ? ? Mo Me| | | | ]; subst; clear M.
  inversion Me as [ | | | | | | |? Hd]; subst; clear Me. rewrite app_nil_r.
  split; [exact Hd|].
  inversion Mo as [ | | | | |? ? ? ? Mc| | ]; subst; clear Mo; [|now left].
  right.
  inversion Mc as [ | | |? ? ? sp ? tok ? Ms Mg| | | | ]; subst; clear Mc.
  inversion Ms; subst; clear Ms.
  inversion Mg as [ | | | |? ? ? ? ? Mt| | | ]; subst; clear Mg.
  destruct (number_token_shape' _ _ _ Mt) as [Ht Hl].
  pose proof (number_token_numeric _ _ _ Mt) as Hn.
  exists sp, tok. repeat split; assumption.
Qed.

(** ** Where the tail cannot match *)

Lemma at_dollar_cases s : at_dollar s = true -> s = [] \/ s = [LF].
Proof.
  destruct s as [|c [|x t]]; cbn [at_dollar]; intros H;
    [now left| |discriminate].
  apply N.eqb_eq in H. subst c. now right.
Qed.

Lemma tail_none_gen i p mk s :
  (forall w r,
      s = w ++ r -> (r = [] \/ r = [LF]) ->
      w = []
      \/ (exists sp tok,
            w = sp ++ tok /\ sp <> [] /\ forallb is_space sp = true
            /\ forallb token_char tok = true
            /\ numeric_token tok
            /\ exists t c, tok = t ++ [c] /\ is_decimal c = true) ->
      False) ->
  run (price_tail i) Some (MState p s mk) = None.
Proof.
  intros H. destruct (run (price_tail i) Some (MState p s mk)) eqn:R;
    [exfalso|reflexivity].
  apply run_sound in R. destruct R as (w & st' & M & _).
  destruct (matches_consumes _ _ _ _ M) as [E _]. cbn [rest] in E.
  destruct (price_tail_shape' _ _ _ _ M) as [D Sh].
  exact (H w (rest st') E (at_dollar_cases _ D) Sh).
Qed.

Lemma numeric_token_last tok :
  numeric_token tok -> exists t c, tok = t ++ [c] /\ is_decimal c = true.
Proof.
  intros (ip & Hip & Htok).
  destruct (all_decimal_parts _ Hip) as [Hne Hd].
  destruct Htok as [->|(sep & fp & _ & Hfp & ->)].
  - now apply last_digit.
  - destruct (all_decimal_parts _ Hfp) as [Hnf Hdf].
    destruct (last_digit _ Hnf Hdf) as (t & c & -> & Hc).
    exists (ip ++ sep :: t), c. split; [|exact Hc].
    now rewrite <- app_assoc.
Qed.

(** After text that ends with a character that is not a blank, followed by
    blanks and a token, the tail does not match before the blanks. *)
Lemma tail_none_before_price i p mk x c sp tok :
  is_space c = false -> blanks sp -> numeric_token tok ->
  run (price_tail i) Some (MState p (x ++ [c] ++ sp ++ tok) mk) = None.
Proof.
  intros Hc [Hne Hsp] Htok. apply tail_none_gen.
  destruct (numeric_token_last _ Htok) as (t & d & -> & Hd).
  intros w r E Hr Sh.
  destruct Hr as [->| ->].
  - rewrite app_nil_r in E. subst w.
    destruct Sh as [Sh|(sp' & tok' & E & _ & Hsp' & Htc & _ & _)].
    + destruct x; discriminate Sh.
    + rewrite app_assoc in E. apply app_eq_app in E.
      destruct E as (l & [[E1 E2]|[E1 E2]]).
      * rewrite E2, !forallb_app in Htc.
        apply andb_true_iff in Htc. destruct Htc as [_ Htc].
        apply andb_true_iff in Htc. destruct Htc as [Htc _].
        destruct sp as [|s0 sp]; [congruence|].
        cbn [forallb] in Htc, Hsp.
        apply andb_true_iff in Htc, Hsp.
        destruct Htc as [Htc _], Hsp as [Hs0 _].
        rewrite (space_not_token_char _ Hs0) in Htc. discriminate.
      * rewrite E1, !forallb_app in Hsp'.
        apply andb_true_iff in Hsp'. destruct Hsp' as [Hsp' _].
        apply andb_true_iff in Hsp'. destruct Hsp' as [_ Hsp'].
        cbn [forallb] in Hsp'. rewrite Hc in Hsp'. discriminate.
  - rewrite !app_assoc in E. apply app_inj_tail in E. destruct E as [_ ->].
    vm_compute in Hd. discriminate.
Qed.

(** ** The lazy body followed by the tail *)

Lemma lazy_body g i p mk body t res :
  forallb (mem Dot) body = true ->
  (forall j q mk', (j < length body)%nat ->
      run (price_tail i) Some (MState q (skipn j body ++ t) mk') = None) ->
  run (price_tail i) Some
      (MState (p + length body) t ((g, (p, (p + length body)%nat)) :: mk))
  = Some res ->
  run (Cat (Group g (LazyStar Dot)) (price_tail i)) Some
      (MState p (body ++ t) mk) = Some res.
Proof.
  intros Hdot Hnone Hend. rewrite run_Cat, run_Group.
  cbn [run pos rest marks].
  apply lazy_first; [exact Hdot| |exact Hend].
  intros j Hj. unfold set_mark. cbn [pos rest marks]. now apply Hnone.
Qed.

(** ** The two patterns on lines of a known form *)

Lemma name_text_first body :
  name_text body -> exists c t, body = c :: t /\ is_space c = false.
Proof.
  intros (Hne & Hs & _). destruct body as [|c t]; [congruence|].
  exists c, t. split; [reflexivity|]. eapply strip_cons. exact Hs.
Qed.

Lemma name_text_last body :
  name_text body -> exists t c, body = t ++ [c] /\ is_space c = false.
Proof.
  intros (Hne & Hs & _). destruct (exists_last Hne) as (t & c & E).
  exists t, c. split; [exact E|]. rewrite E in Hs. eapply strip_snoc.
  exact Hs.
Qed.

Lemma name_text_dot body : name_text body -> forallb (mem Dot) body = true.
Proof.
  intros (_ & _ & Hlf). apply forallb_forall. intros c Hc. cbn [mem].
  apply negb_true_iff, N.eqb_neq. intros ->. exact (Hlf Hc).
Qed.

Lemma skipn_snoc {A} j (x : list A) c :
  (j < length (x ++ [c]))%nat -> skipn j (x ++ [c]) = skipn j x ++ [c].
Proof.
  rewrite length_app. cbn [length]. intros Hj.
  rewrite skipn_app. replace (j - length x)%nat with 0%nat by lia.
  reflexivity.
Qed.

Lemma none_before_price i body sp tok :
  name_text body -> blanks sp -> numeric_token tok ->
  forall j q mk', (j < length body)%nat ->
    run (price_tail i) Some (MState q (skipn j body ++ sp ++ tok) mk') = None.
Proof.
  intros Hb Hsp Htok j q mk' Hj.
  destruct (name_text_last _ Hb) as (x & c & -> & Hc).
  rewrite (skipn_snoc _ _ _ Hj), <- app_assoc.
  now apply tail_none_before_price.
Qed.

Lemma none_before_end i r :
  name_text r -> no_price r ->
  forall j q mk', (j < length r)%nat ->
    run (price_tail i) Some (MState q (skipn j r ++ []) mk') = None.
Proof.
  intros (_ & _ & Hlf) Hnp j q mk' Hj. rewrite app_nil_r.
  apply tail_none_gen. intros w t E Ht Sh.
  destruct Ht as [->| ->].
  - rewrite app_nil_r in E. subst w.
    destruct Sh as [Sh|(sp & tok & E & Hns & Hsp & _ & Hn & _)].
    + apply (f_equal (@length char)) in Sh.
      rewrite length_skipn in Sh. cbn [length] in Sh. lia.
    + apply (Hnp (firstn j r) sp tok); [|now split|exact Hn].
      now rewrite <- E, firstn_skipn.
  - apply Hlf. rewrite <- (firstn_skipn j r), E.
    apply in_or_app. right. apply in_or_app. right. now left.
Qed.

(** Two ways to have no price: the last character is not a digit, or there
    is no blank at all. *)
Lemma no_price_last x c : is_decimal c = false -> no_price (x ++ [c]).
Proof.
  intros Hc x' sp tok E _ Htok.
  destruct (numeric_token_last _ Htok) as (t & d & -> & Hd).
  rewrite !app_assoc in E. apply app_inj_tail in E. destruct E as [_ ->].
  congruence.
Qed.

Lemma no_price_no_blank r :
  forallb (fun c => negb (is_space c)) r = true -> no_price r.
Proof.
  intros H x sp tok -> [Hne Hsp] _.
  destruct sp as [|c sp]; [congruence|].
  cbn [forallb] in Hsp. apply andb_true_iff in Hsp. destruct Hsp as [Hc _].
  rewrite forallb_forall in H. specialize (H c).
  rewrite Hc in H. discriminate H.
  apply in_or_app. right. now left.
Qed.

Lemma stops_digit_blanks sp t : blanks sp -> stops Digit (sp ++ t).
Proof.
  intros [Hne Hsp]. destruct sp as [|c sp]; [congruence|].
  cbn [forallb] in Hsp. apply andb_true_iff in Hsp. destruct Hsp as [Hc _].
  cbn [app stops mem]. now apply space_not_decimal.
Qed.

Lemma stops_space_text body t : name_text body -> stops Space (body ++ t).
Proof.
  intros Hb. destruct (name_text_first _ Hb) as (c & x & -> & Hc).
  exact Hc.
Qed.

Lemma stops_space_name r : name_text r -> stops Space r.
Proof.
  intros Hb. destruct (name_text_first _ Hb) as (c & x & -> & Hc).
  exact Hc.
Qed.

Lemma run_A_priced d sp body sp2 tok :
  all_decimal d = true -> blanks sp -> name_text body -> blanks sp2 ->
  numeric_token tok ->
  let p2 := (0 + length d + length sp)%nat in
  let p3 := (p2 + length body + length sp2)%nat in
  run pattern_A Some (MState 0 (d ++ sp ++ body ++ sp2 ++ tok) [])
  = Some (MState (p3 + length tok) []
            [(3%nat, (p3, (p3 + length tok)%nat));
             (2%nat, (p2, (p2 + length body)%nat));
             (1%nat, (0%nat, (0 + length d)%nat))]).
Proof.
  intros Hd Hsp Hb Hsp2 Htok p2 p3.
  destruct (all_decimal_parts _ Hd) as [Hne Hdd].
  unfold pattern_A. rewrite run_Cat, run_Group.
  apply plus_max; [exact Hne|exact Hdd|now apply stops_digit_blanks|].
  unfold set_mark. cbn [pos rest marks]. rewrite run_Cat.
  apply plus_max; [apply Hsp|apply Hsp|now apply stops_space_text|].
  apply lazy_body;
    [now apply name_text_dot|now apply none_before_price|].
  rewrite tail_some by assumption. reflexivity.
Qed.

Lemma run_A_plain d sp r :
  all_decimal d = true -> blanks sp -> name_text r -> no_price r ->
  let p2 := (0 + length d + length sp)%nat in
  run pattern_A Some (MState 0 (d ++ sp ++ r) [])
  = Some (MState (p2 + length r) []
            [(2%nat, (p2, (p2 + length r)%nat));
             (1%nat, (0%nat, (0 + length d)%nat))]).
Proof.
  intros Hd Hsp Hr Hnp p2.
  destruct (all_decimal_parts _ Hd) as [Hne Hdd].
  unfold pattern_A. rewrite run_Cat, run_Group.
  apply plus_max; [exact Hne|exact Hdd|now apply stops_digit_blanks|].
  unfold set_mark. cbn [pos rest marks]. rewrite run_Cat.
  apply plus_max; [apply Hsp|apply Hsp|now apply stops_space_name|].
  rewrite <- (app_nil_r r) at 1.
  apply lazy_body;
    [now apply name_text_dot|now apply none_before_end|].
  apply price_tail_at_end.
Qed.

Lemma run_B_priced body sp2 tok :
  name_text body -> blanks sp2 -> numeric_token tok ->
  let p3 := (0 + length body + length sp2)%nat in
  run pattern_B Some (MState 0 (body ++ sp2 ++ tok) [])
  = Some (MState (p3 + length tok) []
            [(2%nat, (p3, (p3 + length tok)%nat));
             (1%nat, (0%nat, (0 + length body)%nat))]).
Proof.
  intros Hb Hsp2 Htok p3. unfold pattern_B.
  apply lazy_body;
    [now apply name_text_dot|now apply none_before_price|].
  rewrite tail_some by assumption. reflexivity.
Qed.

Lemma run_B_plain r :
  name_text r -> no_price r ->
  run pattern_B Some (MState 0 (r ++ []) [])
  = Some (MState (0 + length r) []
            [(1%nat, (0%nat, (0 + length r)%nat))]).
Proof.
  intros Hr Hnp. unfold pattern_B.
  apply lazy_body;
    [now apply name_text_dot|now apply none_before_end|].
  apply price_tail_at_end.
Qed.

(** Pattern A only matches lines that start with a digit. *)
Lemma pattern_A_starts_with_digit s m :
  match_ pattern_A s = Some m ->
  exists c t, s = c :: t /\ is_decimal c = true.
Proof.
  unfold match_.
  destruct (run pattern_A Some (MState 0 s [])) as [st|] eqn:R;
    [|discriminate].
  intros _. apply run_sound in R. destruct R as (w & st' & M & _).
  unfold pattern_A in M.
  inversion M as [ | | |? ? ? ? ? ? ? M1 M2| | | | ]; subst; clear M.
  inversion M1 as [ | | | |? ? ? ? ? Md| | | ]; subst; clear M1.
  inversion Md; subst; clear Md.
  match goal with
  | Hne : ?d <> [], Hd : forallb (mem Digit) ?d = true |- _ =>
      destruct d as [|c d']; [congruence|];
      cbn [forallb mem] in Hd; apply andb_true_iff in Hd;
      exists c; eexists; split; [reflexivity|tauto]
  end.
Qed.

(** *** Match objects on lines of a known form *)

Ltac groups_of R :=
  unfold match_; rewrite R by assumption; cbv zeta;
  eexists; split; [reflexivity|];
  unfold group; cbn [regs subject marks lookup Nat.eqb].

Lemma match_A_priced d sp body sp2 tok :
  all_decimal d = true -> blanks sp -> name_text body -> blanks sp2 ->
  numeric_token tok ->
  exists m,
    match_ pattern_A (d ++ sp ++ body ++ sp2 ++ tok) = Some m
    /\ group m 1 = Some d /\ group m 2 = Some body
    /\ group m 3 = Some tok.
Proof.
  intros Hd Hsp Hb Hsp2 Htok. groups_of run_A_priced.
  split; [|split]; f_equal.
  - slice_at (@nil char) d.
  - slice_at (d ++ sp) body.
  - eapply (slice_mid _ (d ++ sp ++ body ++ sp2) tok []);
      [rewrite <- ?app_assoc, app_nil_r; reflexivity
      |rewrite ?length_app; lia|lia].
Qed.

Lemma match_A_plain d sp r :
  all_decimal d = true -> blanks sp -> name_text r -> no_price r ->
  exists m,
    match_ pattern_A (d ++ sp ++ r) = Some m
    /\ group m 1 = Some d /\ group m 2 = Some r /\ group m 3 = None.
Proof.
  intros Hd Hsp Hr Hnp. groups_of run_A_plain.
  split; [|split]; [f_equal..|reflexivity].
  - slice_at (@nil char) d.
  - eapply (slice_mid _ (d ++ sp) r []);
      [rewrite <- ?app_assoc, app_nil_r; reflexivity
      |rewrite ?length_app; lia|lia].
Qed.

Lemma match_B_priced body sp2 tok :
  name_text body -> blanks sp2 -> numeric_token tok ->
  exists m,
    match_ pattern_B (body ++ sp2 ++ tok) = Some m
    /\ group m 1 = Some body /\ group m 2 = Some tok.
Proof.
  intros Hb Hsp2 Htok. groups_of run_B_priced.
  split; f_equal.
  - slice_at (@nil char) body.
  - eapply (slice_mid _ (body ++ sp2) tok []);
      [rewrite <- ?app_assoc, app_nil_r; reflexivity
      |rewrite ?length_app; lia|lia].
Qed.

Lemma match_B_plain r :
  name_text r -> no_price r ->
  exists m,
    match_ pattern_B r = Some m
    /\ group m 1 = Some r /\ group m 2 = None.
Proof.
  intros Hr Hnp. pose proof (run_B_plain r Hr Hnp) as R.
  rewrite app_nil_r in R. groups_of R.
  split; [f_equal|reflexivity].
  eapply (slice_mid _ [] r []);
    [rewrite app_nil_r; reflexivity|reflexivity|lia].
Qed.

(** *** What pattern A needs *)

Lemma span_decimal_prefix d c t :
  forallb (mem Digit) d = true -> is_space c = true ->
  span_decimal (d ++ c :: t) = (d, c :: t).
Proof.
  intros Hd Hc. apply span_decimal_app; [exact Hd|].
  now apply space_not_decimal.
Qed.

Lemma pattern_A_parts s m :
  match_ pattern_A s = Some m ->
  exists d sp r,
    s = d ++ sp ++ r /\ all_decimal d = true /\ blanks sp
    /\ group m 1 = Some d.
Proof.
  unfold match_.
  destruct (run pattern_A Some (MState 0 s [])) as [st|] eqn:R;
    [|discriminate].
  intros Hm. injection Hm as <-.
  apply run_sound in R. destruct R as (w & st' & M & E).
  injection E as ->. unfold pattern_A in M.
  inversion M as [ | | |? ? ? ? ? ? ? M1 M2| | | | ]; subst; clear M.
  inversion M1 as [ | | | |? ? ? ? ? Md| | | ]; subst; clear M1.
  inversion Md; subst; clear Md.
  inversion M2 as [ | | |? ? ? ? ? ? ? Ms M3| | | | ]; subst; clear M2.
  inversion Ms; subst; clear Ms.
  inversion M3 as [ | | |? ? ? ? ? ? ? Mg Mt| | | | ]; subst; clear M3.
  inversion Mg as [ | | | |? ? ? ? ? Mb| | | ]; subst; clear Mg.
  inversion Mb; subst; clear Mb.
  cbn [pos set_mark marks rest] in *.
  match goal with
  | Hne : ?d <> [], HD : forallb (mem Digit) ?d = true,
    Hns : ?sp <> [], HS : forallb (mem Space) ?sp = true |- _ =>
      exists d, sp; eexists; split; [reflexivity|];
      split; [now apply all_decimal_intro|];
      split; [split; assumption|];
      rename d into digits
  end.
  destruct (price_tail_shape _ _ _ _ Mt)
    as [[_ Hm]|(sp2 & tok & _ & _ & Hm)];
    cbn [marks pos set_mark rest] in Hm;
    unfold group; cbn [regs subject]; rewrite Hm; cbn [lookup Nat.eqb];
    f_equal; slice_at (@nil char) digits.
Qed.

Lemma span_decimal_spec s :
  forall d t, span_decimal s = (d, t) ->
    s = d ++ t /\ forallb is_decimal d = true.
Proof.
  induction s as [|c s IH]; intros d t H; cbn [span_decimal] in H.
  - injection H as <- <-. now split.
  - destruct (is_decimal c) eqn:Hc.
    + destruct (span_decimal s) as [ds r]. injection H as <- <-.
      destruct (IH _ _ eq_refl) as [-> Hd].
      split; [reflexivity|]. cbn [forallb]. now rewrite Hc.
    + injection H as <- <-. now split.
Qed.

Lemma span_blanks t :
  exists w r, t = w ++ r /\ forallb is_space w = true /\ stops Space r.
Proof.
  induction t as [|c t (w & r & -> & Hw & Hr)].
  - exists [], []. now repeat split.
  - destruct (is_space c) eqn:Hc.
    + exists (c :: w), r. cbn [forallb app]. rewrite Hc. now repeat split.
    + exists [], (c :: w ++ r). now repeat split.
Qed.

Lemma parts_have_prefix d sp r :
  all_decimal d = true -> blanks sp ->
  has_quantity_prefix (d ++ sp ++ r) = true
  /\ leading_digits (d ++ sp ++ r) = d.
Proof.
  intros Hd [Hne Hsp]. destruct (all_decimal_parts _ Hd) as [Hnd Hdd].
  destruct sp as [|c sp]; [congruence|].
  cbn [forallb] in Hsp. apply andb_true_iff in Hsp. destruct Hsp as [Hc _].
  unfold has_quantity_prefix, leading_digits. cbn [app].
  rewrite (span_decimal_prefix d c _ Hdd Hc). cbn [fst]. rewrite Hc.
  split; [|reflexivity]. destruct d; [congruence|reflexivity].
Qed.

Lemma prefix_has_parts s :
  has_quantity_prefix s = true ->
  exists sp r,
    s = leading_digits s ++ sp ++ r
    /\ all_decimal (leading_digits s) = true /\ blanks sp
    /\ stops Space r.
Proof.
  unfold has_quantity_prefix, leading_digits.
  destruct (span_decimal s) as [d t] eqn:E. cbn [fst].
  destruct (span_decimal_spec _ _ _ E) as [-> Hd].
  destruct t as [|c t]; [discriminate|]. intros H.
  apply andb_true_iff in H. destruct H as [Ht Hc].
  destruct (span_blanks t) as (w & r & -> & Hw & Hr).
  exists (c :: w), r. split; [reflexivity|].
  split; [unfold all_decimal; now rewrite Ht, Hd|].
  split; [|exact Hr]. split; [discriminate|].
  cbn [forallb]. now rewrite Hc, Hw.
Qed.

(** Pattern A matches exactly the lines with a quantity prefix, when they
    have no newline inside. *)
Lemma pattern_A_complete s :
  has_quantity_prefix s = true -> ~ In LF s ->
  exists m, match_ pattern_A s = Some m.
Proof.
  intros Hp Hlf.
  destruct (prefix_has_parts _ Hp) as (sp & r & E & Hd & [Hns Hsp] & Hr).
  destruct (all_decimal_parts _ Hd) as [Hne Hdd].
  assert (Hdot : forallb (mem Dot) r = true).
  { apply forallb_forall. intros c Hc. cbn [mem].
    apply negb_true_iff, N.eqb_neq. intros ->. apply Hlf. rewrite E.
    apply in_or_app. right. apply in_or_app. now right. }
  unfold match_. rewrite E.
  set (mk1 := [(1%nat, (0%nat, (0 + length (leading_digits s))%nat))]).
  set (p2 := (0 + length (leading_digits s) + length sp)%nat).
  destruct (run (Cat (Group 2 (LazyStar Dot)) (price_tail 3)) Some
              (MState p2 r mk1)) as [res|] eqn:R.
  - assert (run pattern_A Some
              (MState 0 (leading_digits s ++ sp ++ r) []) = Some res)
      as ->; [|eauto].
    unfold pattern_A. rewrite run_Cat, run_Group.
    apply plus_max; [exact Hne|exact Hdd| |].
    { apply stops_digit_blanks. now split. }
    unfold set_mark. cbn [pos rest marks]. rewrite run_Cat.
    apply plus_max; [exact Hns|exact Hsp|exact Hr|exact R].
  - exfalso. rewrite run_Cat, run_Group in R. cbn [run pos rest marks] in R.
    revert R. apply lazy_complete; [exact Hdot|].
    intros q. unfold set_mark. cbn [pos rest marks].
    rewrite price_tail_at_end. discriminate.
Qed.

Lemma pattern_A_iff_prefix s :
  ~ In LF s ->
  (exists m, match_ pattern_A s = Some m) <-> has_quantity_prefix s = true.
Proof.
  intros Hlf. split.
  - intros (m & Hm).
    destruct (pattern_A_parts _ _ Hm) as (d & sp & r & -> & Hd & Hsp & _).
    now apply parts_have_prefix.
  - intros Hp. now apply pattern_A_complete.
Qed.

Lemma pattern_A_needs_prefix s m :
  match_ pattern_A s = Some m ->
  has_quantity_prefix s = true /\ group m 1 = Some (leading_digits s).
Proof.
  intros Hm.
  destruct (pattern_A_parts _ _ Hm) as (d & sp & r & -> & Hd & Hsp & G).
  destruct (parts_have_prefix d sp r Hd Hsp) as [H1 H2].
  now rewrite H2.
Qed.

End ReMore.

Import Re ReFacts ReMore.

(** ** Lines of a known form *)

Lemma endswith_true s c : endswith s c = true -> exists t, s = t ++ [c].
Proof.
  unfold endswith. intros H.
  destruct (rev s) as [|x l] eqn:E; [discriminate|].
  apply N.eqb_eq in H. subst x.
  exists (rev l). rewrite <- (rev_involutive s), E. reflexivity.
Qed.

Lemma strip_fixed c t t' c' :
  is_space c = false -> is_space c' = false -> c :: t = t' ++ [c'] ->
  strip (c :: t) = c :: t.
Proof.
  intros Hc Hc' E. unfold strip. rewrite (lstrip_head_nonspace _ _ Hc), E.
  now apply rstrip_snoc_nonspace.
Qed.

Lemma strip_nonempty c t : is_space c = false -> strip (c :: t) <> [].
Proof.
  intros Hc. unfold strip. rewrite (lstrip_head_nonspace _ _ Hc).
  destruct (rstrip_cons_nonspace c t Hc) as [t' ->]. discriminate.
Qed.

Lemma isspace_strip s : isspace (strip s) = false.
Proof.
  destruct (strip s) as [|c t] eqn:E; [reflexivity|].
  apply strip_cons in E. cbn [isspace forallb]. now rewrite E.
Qed.

Lemma isspace_clean_name nm : isspace (clean_name nm) = false.
Proof.
  unfold clean_name. destruct (endswith (strip nm) PERIOD);
    apply isspace_strip.
Qed.

Lemma clean_name_nonempty body :
  name_text body -> body <> [PERIOD] -> clean_name body <> [].
Proof.
  intros Hb Hp. destruct (name_text_first _ Hb) as (c & t & -> & Hc).
  destruct Hb as (_ & Hs & _). unfold clean_name. rewrite Hs.
  destruct (endswith (c :: t) PERIOD) eqn:E; [|discriminate].
  apply endswith_true in E. destruct E as [x E]. rewrite E, drop_last_snoc.
  destruct x as [|c0 x]; [cbn in E; congruence|].
  cbn [app] in E. injection E as -> _. now apply strip_nonempty.
Qed.

Lemma numeric_token_price_token tok : numeric_token tok -> price_token tok.
Proof.
  intros (ip & Hip & Htok).
  destruct (all_decimal_parts _ Hip) as [Hne Hd].
  destruct Htok as [->|(sep & fp & Hsep & Hfp & ->)].
  - rewrite <- (app_nil_r ip). now apply price_token_int.
  - destruct (all_decimal_parts _ Hfp) as [Hnf Hdf].
    apply (price_token_frac ip sep fp); try assumption.
    destruct Hsep as [->| ->]; reflexivity.
Qed.

Lemma to_price_token tok out :
  price_token tok ->
  exists f,
    float_ (replace COMMA PERIOD tok) = inr f
    /\ to_price (Some tok) out = (inr f, out).
Proof.
  intros Ht. destruct (price_token_converts _ Ht) as [f Hf].
  exists f. split; [exact Hf|]. destruct Ht as [T _].
  unfold to_price. rewrite T. unfold try_except, lift. now rewrite Hf.
Qed.

Lemma int_of_digits d :
  all_decimal d = true -> (length d <= int_max_str_digits)%nat ->
  int_ (Some d) = inr (digits_value d).
Proof.
  intros Hd Hl. unfold int_. rewrite Hd.
  destruct (Nat.ltb_spec int_max_str_digits (length d)); [lia|reflexivity].
Qed.

Lemma extract_A line m d b out :
  match_ pattern_A line = Some m ->
  group m 1 = Some d -> group m 2 = Some b ->
  extract line out
  = (match int_ (Some d) with
     | inl e => inl e
     | inr q => inr (q, strip b, group m 3)
     end, out).
Proof.
  intros Hm G1 G2. unfold extract. rewrite Hm, G1, G2.
  unfold bind, lift, ret. cbn [strip_method].
  destruct (int_ (Some d)); reflexivity.
Qed.

Lemma extract_B line m b out :
  match_ pattern_A line = None -> match_ pattern_B line = Some m ->
  group m 1 = Some b ->
  extract line out = (inr (1, strip b, group m 2), out).
Proof.
  intros HA HB G1. unfold extract. rewrite HA, HB, G1. reflexivity.
Qed.

Lemma no_prefix_no_match line :
  has_quantity_prefix line = false -> match_ pattern_A line = None.
Proof.
  intros H. destruct (match_ pattern_A line) as [m|] eqn:E; [|reflexivity].
  apply pattern_A_needs_prefix in E. destruct E as [E _]. congruence.
Qed.

Lemma try_body_emit line products out q nm ps f :
  extract line out = (inr (q, nm, ps), out) ->
  to_price ps out = (inr f, out) ->
  clean_name nm <> [] ->
  try_body line products out
  = (inr (products ++ [Product q (clean_name nm) f]), out).
Proof.
  intros E P N. unfold try_body, bind. rewrite E, P.
  rewrite isspace_clean_name.
  destruct (clean_name nm); [congruence|reflexivity].
Qed.

Lemma try_body_emit_first line q nm ps f :
  extract line [] = (inr (q, nm, ps), []) ->
  to_price ps [] = (inr f, []) ->
  clean_name nm <> [] ->
  try_body line [] [] = (inr [Product q (clean_name nm) f], []).
Proof. apply try_body_emit. Qed.

Lemma records_single line p :
  strip line = line -> (3 <= length line)%nat ->
  try_body line [] [] = (inr [p], []) ->
  records [line] = [p].
Proof.
  intros Hs Hl Hb. rewrite records_eq. cbn [flat_map]. rewrite app_nil_r.
  unfold emitted, skipped, line_records. rewrite Hs, Hb.
  destruct line as [|a [|b [|c l]]]; cbn [length] in Hl; try lia.
  reflexivity.
Qed.

Lemma name_text_strip body : name_text body -> strip body = body.
Proof. intros (_ & H & _). exact H. Qed.

Lemma strip_line_fixed (a b : str) c c' :
  is_space c = false -> is_space c' = false ->
  strip ((c :: a) ++ b ++ [c']) = (c :: a) ++ b ++ [c'].
Proof.
  intros Hc Hc'. cbn [app].
  apply (strip_fixed c _ (c :: a ++ b) c' Hc Hc').
  cbn [app]. now rewrite <- app_assoc.
Qed.

Lemma strip_ends (line : str) c t t' c' :
  line = c :: t -> line = t' ++ [c'] ->
  is_space c = false -> is_space c' = false -> strip line = line.
Proof.
  intros E1 E2 Hc Hc'. rewrite E1. apply (strip_fixed c t t' c' Hc Hc').
  now rewrite <- E1.
Qed.

Lemma decimal_head d :
  all_decimal d = true -> exists c t, d = c :: t /\ is_space c = false.
Proof.
  intros Hd. destruct (all_decimal_parts _ Hd) as [Hne H].
  destruct d as [|c t]; [congruence|]. exists c, t. split; [reflexivity|].
  cbn [forallb mem] in H. apply andb_true_iff in H.
  apply decimal_not_space. tauto.
Qed.

Lemma token_last tok :
  numeric_token tok -> exists t c, tok = t ++ [c] /\ is_space c = false.
Proof.
  intros H. destruct (numeric_token_last _ H) as (t & c & -> & Hc).
  exists t, c. split; [reflexivity|now apply decimal_not_space].
Qed.

(** X1. A line made of a quantity of at most 4300 digits, blanks, a name,
    blanks and a numeric token yields exactly one record: the value of the
    digits, the name with one final period removed, and the float of the
    token. The name is any text without a newline that neither starts nor
    ends with white space and is not a lone period. *)
Theorem priced_line_with_quantity :
  forall d sp body sp2 tok,
    all_decimal d = true -> (length d <= 4300)%nat ->
    blanks sp -> name_text body -> body <> [PERIOD] ->
    blanks sp2 -> numeric_token tok ->
    exists f,
      float_ (replace COMMA PERIOD tok) = inr f
      /\ records [d ++ sp ++ body ++ sp2 ++ tok]
         = [Product (digits_value d) (clean_name body) f].
Proof.
  intros d sp body sp2 tok Hd Hl Hsp Hb Hp Hsp2 Htok.
  destruct (to_price_token tok [] (numeric_token_price_token _ Htok))
    as (f & Hf & Hprice).
  exists f. split; [exact Hf|].
  destruct (match_A_priced d sp body sp2 tok Hd Hsp Hb Hsp2 Htok)
    as (m & Hm & G1 & G2 & G3).
  apply records_single.
  - destruct (decimal_head _ Hd) as (c & t & -> & Hc).
    destruct (token_last _ Htok) as (t' & c' & -> & Hc').
    eapply strip_ends; [reflexivity| |exact Hc|exact Hc'].
    rewrite !app_assoc. reflexivity.
  - destruct Hsp as [Hns _], Hsp2 as [Hns2 _], Hb as [Hnb _].
    rewrite !length_app.
    destruct sp, body, sp2; cbn [length]; try congruence; lia.
  - apply try_body_emit_first with (ps := Some tok).
    + rewrite (extract_A _ m d body [] Hm G1 G2), G3.
      rewrite (int_of_digits d Hd Hl), (name_text_strip _ Hb).
      reflexivity.
    + exact Hprice.
    + now apply clean_name_nonempty.
Qed.

(** X2. A line made of a name, blanks and a numeric token, whose leading
    digits (if any) are not followed by a blank, yields exactly one record
    with quantity 1, the cleaned name and the float of the token. *)
Theorem priced_line_without_quantity :
  forall body sp2 tok,
    name_text body -> body <> [PERIOD] ->
    blanks sp2 -> numeric_token tok ->
    has_quantity_prefix (body ++ sp2 ++ tok) = false ->
    exists f,
      float_ (replace COMMA PERIOD tok) = inr f
      /\ records [body ++ sp2 ++ tok] = [Product 1 (clean_name body) f].
Proof.
  intros body sp2 tok Hb Hp Hsp2 Htok Hq.
  destruct (to_price_token tok [] (numeric_token_price_token _ Htok))
    as (f & Hf & Hprice).
  exists f. split; [exact Hf|].
  destruct (match_B_priced body sp2 tok Hb Hsp2 Htok) as (m & Hm & G1 & G2).
  apply records_single.
  - destruct (name_text_first _ Hb) as (c & t & -> & Hc).
    destruct (token_last _ Htok) as (t' & c' & -> & Hc').
    eapply strip_ends; [reflexivity| |exact Hc|exact Hc'].
    rewrite !app_assoc. reflexivity.
  - destruct Hsp2 as [Hns2 _], Hb as [Hnb _].
    destruct (numeric_token_head _ Htok) as (c & t & -> & _).
    rewrite !length_app.
    destruct body, sp2; cbn [length]; try congruence; lia.
  - apply try_body_emit_first with (ps := Some tok).
    + rewrite (extract_B _ m body [] (no_prefix_no_match _ Hq) Hm G1), G2.
      now rewrite (name_text_strip _ Hb).
    + exact Hprice.
    + now apply clean_name_nonempty.
Qed.

(** X3. A line made of a quantity, blanks and text that does not end with
    blanks and a numeric token yields exactly one record with that
    quantity, the whole text as the name and price 0.0. In particular a
    number that directly follows the quantity is taken for the name. *)
Theorem plain_line_with_quantity :
  forall d sp r,
    all_decimal d = true -> (length d <= 4300)%nat ->
    blanks sp -> name_text r -> r <> [PERIOD] -> no_price r ->
    records [d ++ sp ++ r] = [Product (digits_value d) (clean_name r) zero].
Proof.
  intros d sp r Hd Hl Hsp Hr Hp Hnp.
  destruct (match_A_plain d sp r Hd Hsp Hr Hnp) as (m & Hm & G1 & G2 & G3).
  apply records_single.
  - destruct (decimal_head _ Hd) as (c & t & -> & Hc).
    destruct (name_text_last _ Hr) as (t' & c' & -> & Hc').
    eapply strip_ends; [reflexivity| |exact Hc|exact Hc'].
    rewrite !app_assoc. reflexivity.
  - destruct Hsp as [Hns _], Hr as [Hnr _].
    destruct (all_decimal_parts _ Hd) as [Hnd _].
    rewrite !length_app.
    destruct d, sp, r; cbn [length]; try congruence; lia.
  - apply try_body_emit_first with (ps := None).
    + rewrite (extract_A _ m d r [] Hm G1 G2), G3.
      rewrite (int_of_digits d Hd Hl), (name_text_strip _ Hr).
      reflexivity.
    + reflexivity.
    + now apply clean_name_nonempty.
Qed.

(** X4. A line of at least three characters, without a quantity prefix and
    not ending with blanks and a numeric token, yields exactly one record
    with quantity 1, the cleaned line as the name and price 0.0. *)
Theorem plain_line_without_quantity :
  forall r,
    name_text r -> r <> [PERIOD] -> no_price r -> (3 <= length r)%nat ->
    has_quantity_prefix r = false ->
    records [r] = [Product 1 (clean_name r) zero].
Proof.
  intros r Hr Hp Hnp Hl Hq.
  destruct (match_B_plain r Hr Hnp) as (m & Hm & G1 & G2).
  apply records_single; [now apply name_text_strip|exact Hl|].
  apply try_body_emit_first with (ps := None).
  - rewrite (extract_B _ m r [] (no_prefix_no_match _ Hq) Hm G1), G2.
    now rewrite (name_text_strip _ Hr).
  - reflexivity.
  - now apply clean_name_nonempty.
Qed.

(** ** Exactly which lines are reported *)

Lemma try_body_raises_prefix line products out e o :
  try_body line products out = (inl e, o) ->
  has_quantity_prefix line = true
  /\ (int_max_str_digits < length (leading_digits line))%nat
  /\ e = ValueError (ExceedsDigitLimit (length (leading_digits line))).
Proof.
  unfold try_body, bind.
  destruct (extract line out) as [[e'|[[q nm] ps]] o'] eqn:E.
  - intros H. injection H as <- _. revert E.
    unfold extract, bind, lift, ret.
    destruct (match_ pattern_A line) as [m|] eqn:A.
    + destruct (pattern_A_needs_prefix _ _ A) as [Hp G1].
      destruct (pattern_A_groups _ _ A) as ((d & G1' & Hd) & (b & G2) & _).
      rewrite G1 in G1'. injection G1' as <-.
      rewrite G1, G2. unfold int_. rewrite Hd. cbn [strip_method].
      destruct (int_max_str_digits <? length (leading_digits line))%nat
        eqn:L; [|discriminate].
      intros H. injection H as <- _. apply Nat.ltb_lt in L. auto.
    + destruct (match_ pattern_B line) as [m|] eqn:B; [|discriminate].
      destruct (pattern_B_groups _ _ B) as ((b & ->) & _). discriminate.
  - destruct (to_price_returns ps o') as (f & -> & _).
    destruct (truthy (clean_name nm) && negb (isspace (clean_name nm)));
      discriminate.
Qed.

Lemma long_quantity_raises line products out :
  has_quantity_prefix line = true -> ~ In LF line ->
  (int_max_str_digits < length (leading_digits line))%nat ->
  try_body line products out
  = (inl (ValueError (ExceedsDigitLimit (length (leading_digits line)))),
     out).
Proof.
  intros Hp Hlf Hl. destruct (pattern_A_complete _ Hp Hlf) as [m Hm].
  destruct (pattern_A_needs_prefix _ _ Hm) as [_ G1].
  destruct (pattern_A_groups _ _ Hm) as ((d & G1' & Hd) & (b & G2) & _).
  rewrite G1 in G1'. injection G1' as <-.
  unfold try_body, bind. rewrite (extract_A _ m _ b out Hm G1 G2).
  unfold int_. rewrite Hd.
  apply Nat.ltb_lt in Hl. now rewrite Hl.
Qed.

Lemma span_decimal_length s :
  (length (fst (span_decimal s)) <= length s)%nat.
Proof.
  destruct (span_decimal s) as [d t] eqn:E.
  destruct (span_decimal_spec _ _ _ E) as [-> _].
  cbn [fst]. rewrite length_app. lia.
Qed.

(** X5. On a line without a newline inside, a turn of the loop prints an
    error report exactly when the stripped line starts with more than 4300
    digits followed by a blank; the report carries the line number, the
    stripped line and the digit-limit error of [int], and no record is
    added. In every other case nothing is printed. *)
Theorem report_iff_long_quantity :
  forall n line products out,
    ~ In LF (strip line) ->
    if has_quantity_prefix (strip line)
       && (4300 <? length (leading_digits (strip line)))%nat
    then
      loop_body n line products out
      = (inr products,
         out ++ [ErrorLine n (strip line)
                   (ValueError
                      (ExceedsDigitLimit
                         (length (leading_digits (strip line)))))])
    else
      exists products', loop_body n line products out = (inr products', out).
Proof.
  intros n line products out Hlf.
  destruct (has_quantity_prefix (strip line)
            && (4300 <? length (leading_digits (strip line)))%nat) eqn:C.
  - apply andb_true_iff in C. destruct C as [Hp Hl].
    apply Nat.ltb_lt in Hl.
    assert (S : negb (truthy (strip line))
                || (length (strip line) <? 3)%nat = false).
    { pose proof (span_decimal_length (strip line)) as B.
      unfold leading_digits in Hl.
      destruct (strip line) as [|c t]; [cbn in Hl; lia|].
      cbn [truthy negb orb]. apply Nat.ltb_ge. lia. }
    unfold loop_body. rewrite S. unfold try_except.
    rewrite (long_quantity_raises _ products out Hp Hlf Hl).
    reflexivity.
  - rewrite loop_body_eq. unfold reported.
    destruct (skipped line); [rewrite app_nil_r; eauto|].
    destruct (line_records (strip line)) as [e|l] eqn:R;
      [|rewrite app_nil_r; eauto].
    exfalso. unfold line_records in R.
    destruct (try_body (strip line) [] []) as [r o] eqn:T.
    cbn [fst] in R. subst r.
    destruct (try_body_raises_prefix _ _ _ _ _ T) as (Hp & Hl & _).
    apply Nat.ltb_lt in Hl. unfold int_max_str_digits in Hl.
    rewrite Hp, Hl in C. discriminate.
Qed.

(** ** The price *)

(** X6. Whenever the cascade captures a price token, [float] accepts it
    once the comma is replaced, and the price is that float: the 0.0 of the
    [except ValueError] clause is never used for a captured token. *)
Theorem captured_price_is_converted :
  forall line out q nm tok o,
    extract line out = (inr (q, nm, Some tok), o) ->
    exists f,
      float_ (replace COMMA PERIOD tok) = inr f
      /\ to_price (Some tok) o = (inr f, o).
Proof.
  intros line out q nm tok o E.
  destruct (extract_price_token _ _ _ _ _ _ E) as [H|(t & H & Ht)];
    [discriminate|].
  injection H as <-. now apply to_price_token.
Qed.

(** ** Records and the lines they come from *)

Lemma in_records file p :
  In p (records file) -> exists line, In line file /\ In p (emitted line).
Proof. rewrite records_eq. intros H. apply in_flat_map in H. exact H. Qed.

Lemma in_emitted line p :
  In p (emitted line) ->
  skipped line = false
  /\ exists q nm ps f,
       extract (strip line) [] = (inr (q, nm, ps), [])
       /\ to_price ps [] = (inr f, [])
       /\ p = Product q (clean_name nm) f.
Proof.
  unfold emitted. destruct (skipped line); [intros []|].
  split; [reflexivity|]. revert H.
  unfold line_records, try_body, bind.
  rewrite (silent_extract (strip line) []).
  destruct (fst (extract (strip line) [])) as [e|[[q nm] ps]]; cbn [fst];
    [intros []|].
  cbv beta iota.
  destruct (to_price_returns ps []) as (f & Hf & _). rewrite Hf.
  destruct (truthy (clean_name nm) && negb (isspace (clean_name nm)));
    cbn [ret fst]; intros H; [|destruct H].
  destruct H as [<-|[]]. exists q, nm, ps, f. auto.
Qed.

Lemma strip_idem s : strip (strip s) = strip s.
Proof.
  destruct (strip s) as [|c t] eqn:E; [reflexivity|].
  assert (Hne : c :: t <> []) by discriminate.
  destruct (exists_last Hne) as (t' & c' & E').
  apply (strip_fixed c t t' c'); [| |exact E'].
  - eapply strip_cons. exact E.
  - rewrite E' in E. eapply strip_snoc. exact E.
Qed.

Lemma strip_clean_name nm : strip (clean_name nm) = clean_name nm.
Proof.
  unfold clean_name. destruct (endswith (strip nm) PERIOD);
    apply strip_idem.
Qed.

(** X7. The name of every record returned has no white space at either
    end: stripping it again changes nothing. *)
Theorem names_are_stripped :
  forall file p, In p (records file) -> strip (name p) = name p.
Proof.
  intros file p H. destruct (in_records _ _ H) as (line & _ & Hp).
  destruct (in_emitted _ _ Hp) as (_ & q & nm & ps & f & _ & _ & ->).
  apply strip_clean_name.
Qed.

(** X8. The quantity of a record, for a line without a newline inside, is
    the value of the leading digits of the stripped line when a blank
    follows them, and 1 otherwise. *)
Theorem quantity_of_record :
  forall line p,
    ~ In LF (strip line) -> In p (records [line]) ->
    quantity p
    = if has_quantity_prefix (strip line)
      then digits_value (leading_digits (strip line))
      else 1.
Proof.
  intros line p Hlf H. destruct (in_records _ _ H) as (l & [<-|[]] & Hp).
  destruct (in_emitted _ _ Hp) as (_ & q & nm & ps & f & E & _ & ->).
  cbn [quantity].
  destruct (has_quantity_prefix (strip line)) eqn:Q.
  - destruct (pattern_A_complete _ Q Hlf) as [m Hm].
    destruct (pattern_A_needs_prefix _ _ Hm) as [_ G1].
    destruct (pattern_A_groups _ _ Hm) as ((d & G1' & Hd) & (b & G2) & _).
    rewrite G1 in G1'. injection G1' as <-.
    rewrite (extract_A _ m _ b [] Hm G1 G2) in E.
    unfold int_ in E. rewrite Hd in E.
    destruct (int_max_str_digits <? length (leading_digits (strip line)))%nat;
      [discriminate|].
    now injection E as <- _ _.
  - pose proof (no_prefix_no_match _ Q) as A. revert E.
    unfold extract, bind, lift, ret. rewrite A.
    destruct (match_ pattern_B (strip line)) as [m|].
    + destruct (strip_method (group m 1)); [discriminate|].
      intros E. now injection E as <- _ _.
    + intros E. now injection E as <- _ _.
Qed.

(** ** Standard output *)

Lemma reported_inv n line :
  reported n line = []
  \/ exists e, reported n line = [ErrorLine n (strip line) e]
               /\ emitted line = [].
Proof.
  unfold reported, emitted. destruct (skipped line); [now left|].
  destruct (line_records (strip line)) as [e|l]; [right; eauto|now left].
Qed.

Lemma reports_length k file :
  (length (flat_map emitted file) + length (reports k file)
   <= length file)%nat.
Proof.
  revert k. induction file as [|line file IH]; intros k;
    cbn [flat_map reports length]; [lia|].
  rewrite !length_app. specialize (IH (S k)).
  destruct (reported_inv k line) as [->|(e & -> & ->)].
  - destruct (emitted_inv line) as [->|(p & -> & _)]; cbn [length]; lia.
  - cbn [length]. lia.
Qed.

Lemma reports_inv file :
  forall k r, In r (reports k file) ->
    exists n line e,
      r = ErrorLine (k + n) (strip line) e
      /\ nth_error file n = Some line /\ emitted line = [].
Proof.
  induction file as [|line file IH]; intros k r H; cbn [reports] in H;
    [destruct H|].
  apply in_app_or in H. destruct H as [H|H].
  - destruct (reported_inv k line) as [E|(e & E & Hem)]; rewrite E in H;
      [destruct H|].
    destruct H as [<-|[]]. exists 0%nat, line, e.
    rewrite Nat.add_0_r. auto.
  - destruct (IH _ _ H) as (n & l & e & -> & Hn & Hem).
    exists (S n), l, e. rewrite Nat.add_succ_r. auto.
Qed.

(** X9. A run appends to standard output the error reports and then one
    summary line whose total is the number of records returned. Records
    and reports together are at most as many as the lines; every report
    carries the 1-based number and the stripped text of a line of the file
    that yields no record. *)
Theorem stdout_accounting :
  forall file out,
    exists rs,
      snd (parse_inventory_file file out)
      = out ++ rs ++ [Total (length (records file))]
      /\ (length (records file) + length rs <= length file)%nat
      /\ forall r, In r rs ->
           exists n line e,
             r = ErrorLine (S n) (strip line) e
             /\ nth_error file n = Some line
             /\ records [line] = [].
Proof.
  intros file out. exists (reports 1 file).
  rewrite parse_inventory_file_eq, records_eq. cbn [snd].
  split; [reflexivity|]. split; [apply reports_length|].
  intros r H. destruct (reports_inv _ _ _ H) as (n & line & e & -> & Hn & He).
  exists n, line, e. repeat split; [exact Hn|].
  rewrite records_eq. cbn [flat_map]. now rewrite He.
Qed.

(** ** Lines that do not end with a digit *)

Lemma suffix_snoc {A} (a b x : list A) c :
  a ++ b = x ++ [c] -> b = [] \/ exists x', b = x' ++ [c].
Proof.
  intros E. destruct b as [|b0 b]; [now left|]. right.
  assert (Hne : b0 :: b <> []) by discriminate.
  destruct (exists_last Hne) as (b' & c' & Eb). rewrite Eb in *.
  rewrite app_assoc in E. apply app_inj_tail in E. destruct E as [_ ->].
  eauto.
Qed.

Lemma tail_without_digit i st w st' c :
  matches (price_tail i) st w st' ->
  rest st = [] \/ (exists x, rest st = x ++ [c]) ->
  is_decimal c = false -> c <> LF ->
  marks st' = marks st.
Proof.
  intros M Hr Hc Hlf.
  destruct (matches_consumes _ _ _ _ M) as [E _].
  destruct (price_tail_shape' _ _ _ _ M) as [D Sh].
  destruct (price_tail_shape _ _ _ _ M)
    as [[_ Hm]|(sp & tok & Ew & [T _] & _)]; [exact Hm|].
  exfalso.
  assert (Hw : w <> []).
  { rewrite Ew. destruct tok; [discriminate T|]. now destruct sp. }
  destruct Sh as [Sh|(sp' & tok' & -> & _ & _ & _ & _ & (t & d & -> & Hd))];
    [congruence|].
  destruct Hr as [Hr|[x Hr]]; rewrite Hr in E.
  - symmetry in E. apply app_eq_nil in E. tauto.
  - apply at_dollar_cases in D. destruct D as [D|D]; rewrite D in E.
    + rewrite app_nil_r, app_assoc in E. apply app_inj_tail in E.
      destruct E as [_ ->]. congruence.
    + apply app_inj_tail in E. destruct E as [_ ->]. congruence.
Qed.

Lemma no_token_A s m x c :
  match_ pattern_A s = Some m ->
  s = x ++ [c] -> is_decimal c = false -> c <> LF ->
  group m 3 = None.
Proof.
  unfold match_.
  destruct (run pattern_A Some (MState 0 s [])) as [st|] eqn:R;
    [|discriminate].
  intros Hm Es Hc Hlf. injection Hm as <-.
  apply run_sound in R. destruct R as (w & st' & M & E).
  injection E as ->. unfold pattern_A in M.
  inversion M as [ | | |? ? ? ? ? ? ? M1 M2| | | | ]; subst; clear M.
  inversion M1 as [ | | | |? ? ? ? ? Md| | | ]; subst; clear M1.
  inversion Md; subst; clear Md.
  inversion M2 as [ | | |? ? ? ? ? ? ? Ms M3| | | | ]; subst; clear M2.
  inversion Ms; subst; clear Ms.
  inversion M3 as [ | | |? ? ? ? ? ? ? Mg Mt| | | | ]; subst; clear M3.
  inversion Mg as [ | | | |? ? ? ? ? Mb| | | ]; subst; clear Mg.
  inversion Mb; subst; clear Mb.
  cbn [pos set_mark marks rest] in *.
  match goal with
  | H : _ ++ _ ++ _ ++ _ = x ++ [c] |- _ =>
      rewrite !app_assoc in H; apply suffix_snoc in H;
      pose proof (tail_without_digit _ _ _ _ c Mt H Hc Hlf) as Hm
  end.
  cbn [marks] in Hm. unfold group. cbn [regs]. rewrite Hm. reflexivity.
Qed.

Lemma no_token_B s m x c :
  match_ pattern_B s = Some m ->
  s = x ++ [c] -> is_decimal c = false -> c <> LF ->
  group m 2 = None.
Proof.
  unfold match_.
  destruct (run pattern_B Some (MState 0 s [])) as [st|] eqn:R;
    [|discriminate].
  intros Hm Es Hc Hlf. injection Hm as <-.
  apply run_sound in R. destruct R as (w & st' & M & E).
  injection E as ->. unfold pattern_B in M.
  inversion M as [ | | |? ? ? ? ? ? ? Mg Mt| | | | ]; subst; clear M.
  inversion Mg as [ | | | |? ? ? ? ? Mb| | | ]; subst; clear Mg.
  inversion Mb; subst; clear Mb.
  cbn [pos set_mark marks rest] in *.
  match goal with
  | H : _ ++ _ = x ++ [c] |- _ =>
      apply suffix_snoc in H;
      pose proof (tail_without_digit _ _ _ _ c Mt H Hc Hlf) as Hm
  end.
  cbn [marks] in Hm. unfold group. cbn [regs]. rewrite Hm. reflexivity.
Qed.

Lemma extract_no_token s x c out q nm ps o :
  s = x ++ [c] -> is_decimal c = false -> c <> LF ->
  extract s out = (inr (q, nm, ps), o) -> ps = None.
Proof.
  intros Es Hc Hlf. unfold extract, bind, lift, ret.
  destruct (match_ pattern_A s) as [m|] eqn:A.
  - rewrite (no_token_A _ _ _ _ A Es Hc Hlf).
    destruct (int_ (group m 1)); [discriminate|].
    destruct (strip_method (group m 2)); [discriminate|].
    intros H. now injection H as _ _ <- _.
  - destruct (match_ pattern_B s) as [m|] eqn:B.
    + rewrite (no_token_B _ _ _ _ B Es Hc Hlf).
      destruct (strip_method (group m 1)); [discriminate|].
      intros H. now injection H as _ _ <- _.
    + intros H. now injection H as _ _ <- _.
Qed.

(** X10. A line whose last character, once stripped, is not a decimal
    digit never gets a price: every record it yields has price 0.0. *)
Theorem no_final_digit_no_price :
  forall line x c p,
    strip line = x ++ [c] -> is_decimal c = false ->
    In p (records [line]) -> price p = zero.
Proof.
  intros line x c p Es Hc H.
  destruct (in_records _ _ H) as (l & [<-|[]] & Hp).
  destruct (in_emitted _ _ Hp) as (_ & q & nm & ps & f & E & P & ->).
  cbn [price].
  assert (Hlf : c <> LF).
  { intros ->. apply strip_snoc in Es. discriminate Es. }
  rewrite (extract_no_token _ _ _ _ _ _ _ _ Es Hc Hlf E) in P.
  cbn [to_price ret] in P. now injection P as <-.
Qed.

(** ** Witnesses *)

Lemma no_newline_check s :
  forallb (fun c => negb (c =? LF)%N) s = true -> ~ In LF s.
Proof.
  intros H Hin. rewrite forallb_forall in H. specialize (H LF Hin).
  discriminate H.
Qed.

Ltac not_in_line := apply no_newline_check; vm_compute; reflexivity.

Ltac is_name_text :=
  split; [discriminate|split; [reflexivity|not_in_line]].

Ltac is_blanks := split; [discriminate|reflexivity].

Lemma priced_line_with_quantity_witness :
  let line := u "7  Cola branca.   3,2" in
  line = u "7" ++ u "  " ++ u "Cola branca." ++ u "   " ++ u "3,2"
  /\ exists f,
       float_ (replace COMMA PERIOD (u "3,2")) = inr f
       /\ records [line] = [Product 7 (u "Cola branca") f].
Proof.
  cbv zeta. split; [reflexivity|].
  apply (priced_line_with_quantity
           (u "7") (u "  ") (u "Cola branca.") (u "   ") (u "3,2")).
  - reflexivity.
  - cbn. lia.
  - is_blanks.
  - is_name_text.
  - discriminate.
  - is_blanks.
  - exists (u "3"). split; [reflexivity|]. right.
    exists COMMA, (u "2"). repeat split. now right.
Defined.

Lemma priced_line_without_quantity_witness :
  let line := u "2B grafite 0,75" in
  has_quantity_prefix line = false
  /\ exists f,
       float_ (replace COMMA PERIOD (u "0,75")) = inr f
       /\ records [line] = [Product 1 (u "2B grafite") f].
Proof.
  cbv zeta. split; [reflexivity|].
  apply (priced_line_without_quantity (u "2B grafite") (u " ") (u "0,75")).
  - is_name_text.
  - discriminate.
  - is_blanks.
  - exists (u "0"). split; [reflexivity|]. right.
    exists COMMA, (u "75"). repeat split. now right.
  - reflexivity.
Defined.

Lemma plain_line_with_quantity_witness :
  no_price (u "3,50")
  /\ records [u "5" ++ u " " ++ u "3,50"] = [Product 5 (u "3,50") zero].
Proof.
  assert (N : no_price (u "3,50")) by (apply no_price_no_blank; reflexivity).
  split; [exact N|].
  apply (plain_line_with_quantity (u "5") (u " ") (u "3,50")).
  - reflexivity.
  - cbn. lia.
  - is_blanks.
  - is_name_text.
  - discriminate.
  - exact N.
Defined.

Lemma plain_line_without_quantity_witness :
  no_price (u "Papel sulfite.")
  /\ records [u "Papel sulfite."] = [Product 1 (u "Papel sulfite") zero].
Proof.
  assert (N : no_price (u "Papel sulfite."))
    by (apply (no_price_last (u "Papel sulfite") PERIOD); reflexivity).
  split; [exact N|].
  apply (plain_line_without_quantity (u "Papel sulfite.")).
  - is_name_text.
  - discriminate.
  - exact N.
  - cbn. lia.
  - reflexivity.
Defined.

Lemma report_iff_long_quantity_witness :
  let line := repeat 49%N 4301 ++ u " Caneta 2,50" in
  ~ In LF (strip line)
  /\ loop_body 8 line [] []
     = (inr [],
        [] ++ [ErrorLine 8 (strip line)
                 (ValueError
                    (ExceedsDigitLimit
                       (length (leading_digits (strip line)))))]).
Proof.
  cbv zeta.
  assert (H : ~ In LF (strip (repeat 49%N 4301 ++ u " Caneta 2,50")))
    by not_in_line.
  split; [exact H|].
  pose proof (report_iff_long_quantity 8 _ [] [] H) as W.
  assert (C : has_quantity_prefix
                (strip (repeat 49%N 4301 ++ u " Caneta 2,50"))
              && (4300 <? length (leading_digits
                    (strip (repeat 49%N 4301 ++ u " Caneta 2,50"))))%nat
              = true) by (vm_compute; reflexivity).
  rewrite C in W. exact W.
Defined.

Lemma captured_price_is_converted_witness :
  extract (u "Caderno 20 folhas 5,50") []
  = (inr (1, u "Caderno 20 folhas", Some (u "5,50")), [])
  /\ exists f,
       float_ (replace COMMA PERIOD (u "5,50")) = inr f
       /\ to_price (Some (u "5,50")) [] = (inr f, []).
Proof.
  assert (E : extract (u "Caderno 20 folhas 5,50") []
              = (inr (1, u "Caderno 20 folhas", Some (u "5,50")), []))
    by (vm_compute; reflexivity).
  split; [exact E|].
  exact (captured_price_is_converted _ _ _ _ _ _ E).
Defined.

Lemma names_are_stripped_witness :
  let p := Product 1 (u "Borracha") zero in
  In p (records [u "  Borracha .  "]) /\ strip (name p) = name p.
Proof.
  cbv zeta.
  assert (H : In (Product 1 (u "Borracha") zero)
                 (records [u "  Borracha .  "]))
    by (vm_compute; left; reflexivity).
  split; [exact H|]. exact (names_are_stripped _ _ H).
Defined.

Lemma quantity_of_record_witness :
  let line := u "12x Caneta azul 1,20" in
  has_quantity_prefix (strip line) = false
  /\ forall p, In p (records [line]) -> quantity p = 1.
Proof.
  cbv zeta.
  assert (H : ~ In LF (strip (u "12x Caneta azul 1,20"))) by not_in_line.
  split; [reflexivity|].
  intros p Hp.
  exact (quantity_of_record (u "12x Caneta azul 1,20") p H Hp).
Defined.

Lemma stdout_accounting_witness :
  let file := [repeat 49%N 4301 ++ u " x"; u ""; u "2 Cola 3"] in
  exists rs,
    snd (parse_inventory_file file [])
    = [] ++ rs ++ [Total (length (records file))]
    /\ (length (records file) + length rs <= length file)%nat
    /\ forall r, In r rs ->
         exists n line e,
           r = ErrorLine (S n) (strip line) e
           /\ nth_error file n = Some line
           /\ records [line] = [].
Proof.
  exact (stdout_accounting
           [repeat 49%N 4301 ++ u " x"; u ""; u "2 Cola 3"] []).
Defined.

Lemma no_final_digit_no_price_witness :
  let line := u "3 Cola 2,50 R$" in
  let p := Product 3 (u "Cola 2,50 R$") zero in
  strip line = u "3 Cola 2,50 R" ++ [36%N]
  /\ In p (records [line]) /\ price p = zero.
Proof.
  cbv zeta.
  assert (H : In (Product 3 (u "Cola 2,50 R$") zero)
                 (records [u "3 Cola 2,50 R$"]))
    by (vm_compute; left; reflexivity).
  split; [reflexivity|]. split; [exact H|].
  apply (no_final_digit_no_price (u "3 Cola 2,50 R$")
           (u "3 Cola 2,50 R") 36%N); [reflexivity|reflexivity|exact H].
Defined.

(** ** Blanks around a line *)

Lemma lstrip_blanks a s :
  forallb is_space a = true -> lstrip (a ++ s) = lstrip s.
Proof.
  induction a as [|c a IH]; cbn [forallb app lstrip]; [reflexivity|].
  intros H. apply andb_true_iff in H. destruct H as [-> H]. now apply IH.
Qed.

Lemma lstrip_all_blanks a : forallb is_space a = true -> lstrip a = [].
Proof.
  intros H. rewrite <- (app_nil_r a). now rewrite lstrip_blanks.
Qed.

Lemma rstrip_blanks s b :
  forallb is_space b = true -> rstrip (s ++ b) = rstrip s.
Proof.
  intros H. unfold rstrip. rewrite rev_app_distr, lstrip_blanks;
    [reflexivity|].
  rewrite forallb_forall in *. intros c Hc. apply H. now apply in_rev.
Qed.

Lemma lstrip_app_blanks s b :
  forallb is_space b = true ->
  (lstrip s = [] /\ lstrip (s ++ b) = [])
  \/ lstrip (s ++ b) = lstrip s ++ b.
Proof.
  intros H. induction s as [|c s IH]; cbn [app lstrip].
  - left. split; [reflexivity|now apply lstrip_all_blanks].
  - destruct (is_space c); [exact IH|now right].
Qed.

Lemma strip_blanks_around a s b :
  forallb is_space a = true -> forallb is_space b = true ->
  strip (a ++ s ++ b) = strip s.
Proof.
  intros Ha Hb. unfold strip. rewrite (lstrip_blanks a _ Ha).
  destruct (lstrip_app_blanks s b Hb) as [[E1 E2]| ->].
  - now rewrite E1, E2.
  - now apply rstrip_blanks.
Qed.

(** X11. White space before and after a line, the line terminator
    included, changes nothing: the turn of the loop gives the same records
    and the same output as on the bare line. *)
Theorem surrounding_blanks_ignored :
  forall a b line n products out,
    forallb is_space a = true -> forallb is_space b = true ->
    loop_body n (a ++ line ++ b) products out
    = loop_body n line products out.
Proof.
  intros a b line n products out Ha Hb. unfold loop_body.
  now rewrite (strip_blanks_around a line b Ha Hb).
Qed.

Lemma surrounding_blanks_ignored_witness :
  let line := u "3 Cola 2,50" in
  loop_body 1 ([9; 32]%N ++ line ++ [32; 13; LF]%N) [] []
  = loop_body 1 line [] [].
Proof.
  cbv zeta.
  apply (surrounding_blanks_ignored [9; 32]%N [32; 13; LF]%N);
    reflexivity.
Defined.

(** * The callers of the parser *)

Lemma call_returns c drv w row :
  drv (calls w) c = Returns row ->
  call c drv w
  = (inr row, World (console w) (calls w ++ [c]) (products_json w)).
Proof. intros H. unfold call. now rewrite H. Qed.

Lemma call_raises c drv w error :
  drv (calls w) c = Raises error ->
  call c drv w
  = (inl (DbError error),
     World (console w) (calls w ++ [c]) (products_json w)).
Proof. intros H. unfold call. now rewrite H. Qed.

Lemma insert_loop_all drv products :
  never_raises drv ->
  forall w,
    insert_loop products drv w
    = (inr tt,
       World (console w) (calls w ++ map insert_product products)
             (products_json w)).
Proof.
  intros Hd. induction products as [|p products IH]; intros w.
  - cbn. rewrite app_nil_r. now destruct w.
  - unfold insert_loop. cbn [for_each]. unfold bindP at 1 2.
    destruct (Hd (calls w) (insert_product p)) as [row D].
    rewrite (call_returns _ _ _ _ D). cbn [retP].
    fold (insert_loop products). rewrite IH.
    cbn [console calls products_json map]. now rewrite <- app_assoc.
Qed.

Lemma insert_loop_fails drv before p after error :
  forall w,
    (forall h c, (length h < length (calls w) + length before)%nat ->
                 exists row, drv h c = Returns row) ->
    drv (calls w ++ map insert_product before) (insert_product p)
    = Raises error ->
    insert_loop (before ++ p :: after) drv w
    = (inl (DbError error),
       World (console w)
             (calls w ++ map insert_product (before ++ [p]))
             (products_json w)).
Proof.
  induction before as [|b before IH]; intros w Hd Hr.
  - cbn [app map] in *. rewrite app_nil_r in Hr.
    unfold insert_loop. cbn [for_each]. unfold bindP at 1 2.
    now rewrite (call_raises _ _ _ _ Hr).
  - unfold insert_loop. cbn [for_each app]. unfold bindP at 1 2.
    destruct (Hd (calls w) (insert_product b)) as [row D];
      [cbn [length]; lia|].
    rewrite (call_returns _ _ _ _ D). cbn [retP].
    fold (insert_loop (before ++ p :: after)). rewrite IH.
    + cbn [console calls products_json map app]. now rewrite <- app_assoc.
    + cbn [calls]. intros h c Hh. apply Hd.
      rewrite length_app in Hh. cbn [length] in *. lia.
    + cbn [calls]. rewrite <- app_assoc. exact Hr.
Qed.

(** ** [import_products_to_db] *)

Ltac prefix_of_script n :=
  cbn [calls console products_json];
  split; [reflexivity|];
  split; [reflexivity|];
  exists n; cbn [firstn]; rewrite <- ?app_assoc; reflexivity.

(** X12. Whatever the database answers or refuses, when the count it
    returns is not zero [import_products_to_db] makes no call outside
    connect, cursor, the count query, fetchone and the two closes: no
    INSERT is sent. It prints nothing and writes no file. *)
Theorem import_skips_non_empty_table :
  forall drv w products count rest,
    drv (calls w ++ [Connect; Cursor; count_products]) Fetchone
    = Returns (Some (count :: rest)) ->
    equals_zero count = false ->
    let '(_, w') := import_products_to_db products drv w in
    console w' = console w /\ products_json w' = products_json w
    /\ exists n,
         calls w'
         = calls w ++ firstn n [Connect; Cursor; count_products; Fetchone;
                                CursorClose; ConnClose].
Proof.
  intros drv w products count rest Hf Hz.
  unfold import_products_to_db, bindP, call, liftP, retP.
  destruct (drv (calls w) Connect);
    cbn [calls console products_json]; [prefix_of_script 1%nat|].
  destruct (drv (calls w ++ [Connect]) Cursor);
    cbn [calls console products_json]; [prefix_of_script 2%nat|].
  destruct (drv ((calls w ++ [Connect]) ++ [Cursor]) count_products);
    cbn [calls console products_json]; [prefix_of_script 3%nat|].
  replace (((calls w ++ [Connect]) ++ [Cursor]) ++ [count_products])
    with (calls w ++ [Connect; Cursor; count_products])
    by (now rewrite <- !app_assoc).
  rewrite Hf. cbn [item0]. rewrite Hz.
  cbn [calls console products_json].
  destruct (drv _ CursorClose);
    cbn [calls console products_json]; [prefix_of_script 5%nat|].
  destruct (drv _ ConnClose); prefix_of_script 6%nat.
Qed.

Lemma bind_call_returns {B} c (k : option (list value) -> P B) drv w row :
  drv (calls w) c = Returns row ->
  bindP (call c) k drv w
  = k row drv (World (console w) (calls w ++ [c]) (products_json w)).
Proof. intros H. unfold bindP. now rewrite (call_returns _ _ _ _ H). Qed.

Ltac run_call_by tac :=
  match goal with
  | |- context [bindP (call ?c) ?k ?drv ?w] =>
      let r := fresh "row" in
      let D := fresh "D" in
      assert (exists row, drv (calls w) c = Returns row) as [r D] by tac;
      rewrite (bind_call_returns c k drv w r D); clear D;
      cbn [calls console products_json];
      rewrite <- ?app_assoc; cbn [app]
  end.

Ltac run_call Hd := run_call_by ltac:(apply Hd).

Ltac short_history Hd :=
  apply Hd; cbn [calls]; rewrite ?length_app; cbn [length]; lia.

Ltac run_fetch Hf :=
  match goal with
  | |- context [bindP (call Fetchone) ?k ?drv ?w] =>
      rewrite (bind_call_returns Fetchone k drv w _ Hf);
      cbn [calls console products_json];
      rewrite <- ?app_assoc; cbn [app]
  end.

Lemma import_into_empty_table :
  forall drv w products count rest,
    never_raises drv ->
    drv (calls w ++ [Connect; Cursor; count_products]) Fetchone
    = Returns (Some (count :: rest)) ->
    equals_zero count = true ->
    import_products_to_db products drv w
    = (inr tt,
       World (console w)
             (calls w ++ read_count ++ map insert_product products
                ++ [CursorClose; ConnClose])
             (products_json w)).
Proof.
  intros drv w products count rest Hd Hf Hz.
  unfold import_products_to_db.
  run_call Hd. run_call Hd. run_call Hd. run_fetch Hf.
  unfold bindP at 1. cbn [liftP item0]. rewrite Hz.
  unfold bindP at 1. rewrite (insert_loop_all _ _ Hd).
  cbn [calls console products_json].
  run_call Hd. run_call Hd. unfold retP, read_count.
  now rewrite <- !app_assoc.
Qed.

(** X13. When the table is empty and the database refuses a row, the
    import stops there: the rows before it and the refused one were sent,
    the rows after it are not, the error leaves the function, and neither
    the cursor nor the connection is closed. *)
Theorem failed_insert_stops_import :
  forall drv w before p after count rest error,
    (forall h c, (length h < length (calls w) + 4 + length before)%nat ->
                 exists row, drv h c = Returns row) ->
    drv (calls w ++ [Connect; Cursor; count_products]) Fetchone
    = Returns (Some (count :: rest)) ->
    equals_zero count = true ->
    drv (calls w ++ read_count ++ map insert_product before)
        (insert_product p) = Raises error ->
    import_products_to_db (before ++ p :: after) drv w
    = (inl (DbError error),
       World (console w)
             (calls w ++ read_count ++ map insert_product (before ++ [p]))
             (products_json w)).
Proof.
  intros drv w before p after count rest error Hd Hf Hz Hr.
  unfold import_products_to_db.
  run_call_by ltac:(short_history Hd).
  run_call_by ltac:(short_history Hd).
  run_call_by ltac:(short_history Hd).
  run_fetch Hf.
  unfold bindP at 1. cbn [liftP item0]. rewrite Hz.
  unfold bindP at 1. rewrite (insert_loop_fails drv before p after error).
  - cbn [calls console products_json]. unfold read_count.
    now rewrite <- !app_assoc.
  - cbn [calls]. intros h c Hh. apply Hd.
    rewrite length_app in Hh. cbn [length] in Hh. lia.
  - cbn [calls]. unfold read_count in Hr. now rewrite <- app_assoc.
Qed.

(** ** The start of the program *)

Lemma records_valid file : Forall valid_record (records file).
Proof.
  rewrite records_eq.
  induction file as [|line file IH]; cbn [flat_map]; [constructor|].
  apply Forall_app. split; [|exact IH].
  destruct (emitted_inv line) as [->|(p & -> & Hp)]; auto.
Qed.

Lemma from_parser_parse file drv w :
  from_parser (parse_inventory_file file) drv w
  = (inr (records file),
     World (console w
              ++ map FromParser (snd (parse_inventory_file file [])))
           (calls w) (products_json w)).
Proof.
  unfold from_parser. rewrite records_eq, parse_inventory_file_eq.
  reflexivity.
Qed.

(** X14. At the start of the program, whatever the database refuses, when
    the count it returns is not zero the inventory file is not parsed,
    no INSERT is sent, products.json is not written, and the only line
    printed is the one that says the import was skipped. *)
Theorem startup_leaves_non_empty_table_alone :
  forall drv w inventory_file count rest,
    drv (calls w ++ [Connect; Cursor; count_products]) Fetchone
    = Returns (Some (count :: rest)) ->
    equals_zero count = false ->
    let '(r, w') := startup_import inventory_file drv w in
    products_json w' = products_json w
    /\ (exists n,
          calls w'
          = calls w ++ firstn n [Connect; Cursor; count_products; Fetchone;
                                 CursorClose; ConnClose])
    /\ match r with
       | inr _ => console w' = console w ++ [AlreadyHas count]
       | inl _ => console w' = console w
       end.
Proof.
  intros drv w inventory_file count rest Hf Hz.
  unfold startup_import, bindP, call, liftP, retP, printP.
  destruct (drv (calls w) Connect);
    cbn [calls console products_json];
    [split; [reflexivity|split; [now exists 1%nat|reflexivity]]|].
  destruct (drv (calls w ++ [Connect]) Cursor);
    cbn [calls console products_json];
    [split; [reflexivity|split; [exists 2%nat|reflexivity]];
     cbn [firstn]; now rewrite <- ?app_assoc|].
  destruct (drv ((calls w ++ [Connect]) ++ [Cursor]) count_products);
    cbn [calls console products_json];
    [split; [reflexivity|split; [exists 3%nat|reflexivity]];
     cbn [firstn]; now rewrite <- ?app_assoc|].
  replace (((calls w ++ [Connect]) ++ [Cursor]) ++ [count_products])
    with (calls w ++ [Connect; Cursor; count_products])
    by (now rewrite <- !app_assoc).
  rewrite Hf. cbn [item0 calls console products_json].
  destruct (drv _ CursorClose);
    cbn [calls console products_json];
    [split; [reflexivity|split; [exists 5%nat|reflexivity]];
     cbn [firstn]; now rewrite <- ?app_assoc|].
  destruct (drv _ ConnClose);
    cbn [calls console products_json];
    [split; [reflexivity|split; [exists 6%nat|reflexivity]];
     cbn [firstn]; now rewrite <- ?app_assoc|].
  rewrite Hz. cbn [calls console products_json].
  split; [reflexivity|split; [exists 6%nat|reflexivity]].
  cbn [firstn]. now rewrite <- ?app_assoc.
Qed.

(** X15. At the start of the program, when the table is empty, the
    inventory file exists and no call fails, the rows sent to the database
    are exactly the records of the parser, in the order of the lines, and
    every one satisfies the output invariant; the same records are written
    to products.json, and the console shows the parser's lines between the
    two messages of the import. *)
Theorem startup_imports_parsed_records :
  forall drv w file count rest count' rest',
    never_raises drv ->
    drv (calls w ++ [Connect; Cursor; count_products]) Fetchone
    = Returns (Some (count :: rest)) ->
    equals_zero count = true ->
    drv (calls w ++ first_check ++ [Connect; Cursor; count_products])
        Fetchone
    = Returns (Some (count' :: rest')) ->
    equals_zero count' = true ->
    startup_import (Some file) drv w
    = (inr tt,
       World (console w ++ [Importing]
                ++ map FromParser (snd (parse_inventory_file file []))
                ++ [Imported (length (records file))])
             (calls w ++ first_check ++ read_count
                ++ map insert_product (records file)
                ++ [CursorClose; ConnClose])
             (products_json w ++ [records file]))
    /\ Forall valid_record (records file).
Proof.
  intros drv w file count rest count' rest' Hd Hf Hz Hf' Hz'.
  split.
  - unfold startup_import.
    run_call Hd. run_call Hd. run_call Hd. run_fetch Hf.
    unfold bindP at 1. cbn [liftP item0].
    run_call Hd. run_call Hd. rewrite Hz.
    unfold bindP at 1. cbn [printP calls console products_json].
    unfold bindP at 1. rewrite from_parser_parse.
    cbn [calls console products_json].
    unfold bindP at 1.
    rewrite (import_into_empty_table drv _ (records file) count' rest' Hd);
      [|cbn [calls]; rewrite <- app_assoc; exact Hf'|exact Hz'].
    cbn [calls console products_json].
    unfold bindP, dump_json, printP. cbn [calls console products_json].
    unfold first_check, read_count. f_equal. f_equal.
    + now rewrite <- !app_assoc.
    + now rewrite <- !app_assoc.
  - apply records_valid.
Qed.

(** ** Witnesses *)

Lemma import_skips_non_empty_table_witness :
  let '(_, w') :=
    import_products_to_db [Product 3 (u "Cola") zero] stocked_db world0 in
  console w' = console world0 /\ products_json w' = products_json world0
  /\ exists n,
       calls w'
       = calls world0
           ++ firstn n [Connect; Cursor; count_products; Fetchone;
                        CursorClose; ConnClose].
Proof.
  apply (import_skips_non_empty_table stocked_db world0
           [Product 3 (u "Cola") zero] (VInt 3) []); reflexivity.
Defined.

Lemma failed_insert_stops_import_witness :
  let p1 := Product 3 (u "Cola") zero in
  let p2 := Product 99999999999 (u "Clipes") zero in
  let p3 := Product 1 (u "Borracha") zero in
  import_products_to_db ([p1] ++ p2 :: [p3]) refusing_db world0
  = (inl (DbError "integer out of range"),
     World (console world0)
           (calls world0 ++ read_count ++ map insert_product ([p1] ++ [p2]))
           (products_json world0)).
Proof.
  cbv zeta.
  apply (failed_insert_stops_import refusing_db world0 _ _ _ (VInt 0) []).
  - intros h c Hh. unfold refusing_db.
    destruct (Nat.eqb_spec (length h) 5); [cbn in Hh; lia|].
    destruct c; cbn; eauto.
  - reflexivity.
  - reflexivity.
  - reflexivity.
Defined.

Lemma startup_leaves_non_empty_table_alone_witness :
  let '(r, w') := startup_import (Some [u "3 Cola 2,50"]) stocked_db world0 in
  products_json w' = products_json world0
  /\ (exists n,
        calls w'
        = calls world0
            ++ firstn n [Connect; Cursor; count_products; Fetchone;
                         CursorClose; ConnClose])
  /\ match r with
     | inr _ => console w' = console world0 ++ [AlreadyHas (VInt 3)]
     | inl _ => console w' = console world0
     end.
Proof.
  apply (startup_leaves_non_empty_table_alone stocked_db world0
           (Some [u "3 Cola 2,50"]) (VInt 3) []); reflexivity.
Defined.

Lemma startup_imports_parsed_records_witness :
  let file := [u "3 Cola 2,50"; u ""; u "Borracha."] in
  startup_import (Some file) empty_db world0
  = (inr tt,
     World (console world0 ++ [Importing]
              ++ map FromParser (snd (parse_inventory_file file []))
              ++ [Imported (length (records file))])
           (calls world0 ++ first_check ++ read_count
              ++ map insert_product (records file)
              ++ [CursorClose; ConnClose])
           (products_json world0 ++ [records file]))
  /\ Forall valid_record (records file).
Proof.
  cbv zeta.
  apply (startup_imports_parsed_records empty_db world0 _ (VInt 0) []
           (VInt 0) []); try reflexivity.
  intros h c. destruct c; cbn; eauto.
Defined.
